(** * Kubernetes troubleshooting bridge: tool service and agent loop

    A shallow embedding of the two Go programs of the repository:

    - the MCP server ([handleCommandExecution], the handler registered for
      the [kubectl] and [k8sgpt] tools), and
    - the MCP client ([runPrompt], the bounded loop that lets the language
      model call tools).

    Go strings are byte strings and are modelled by [string]; [error] values
    are modelled by their message ([option string], [None] for [nil]);
    everything the programs obtain from the outside (the child process, the
    chat completion service, the remote tool service, the JSON decoder) is
    a parameter, and every effect they perform is recorded in a trace. *)

From Stdlib Require Import String Ascii List ZArith NArith Lia Bool.
From Stdlib Require Import DecimalString.
From stdpp Require Import base gmap strings.
From Equations Require Import Equations.
Import ListNotations.

Set Warnings "-register-all".
#[local] Open Scope string_scope.
#[local] Open Scope list_scope.

(** ** Formatting verbs of package [fmt] and [time.Duration] *)

Module Fmt.

(** [%d] applied to an [int]. *)
Definition d (z : Z) : string := NilZero.string_of_int (Z.to_int z).

(** [t] occurs inside [s]. *)
Definition embeds (t s : string) : Prop :=
  exists pre post, s = pre +:+ t +:+ post.

Definition digit (n : N) : ascii := ascii_of_N (48 + n mod 10).

End Fmt.

Module Duration.

(** [time.Duration]: a count of nanoseconds. *)
Definition t := Z.

Definition Nanosecond : t := 1%Z.
Definition Microsecond : t := (1000 * Nanosecond)%Z.
Definition Millisecond : t := (1000 * Microsecond)%Z.
Definition Second : t := (1000 * Millisecond)%Z.

(** [fmtFrac]: the fraction of [v / 10^prec], written in front of [buf],
    without trailing zeros. *)
Fixpoint fmtFrac (prec : nat) (buf : string) (print : bool) (v : N)
  : string * N :=
  match prec with
  | O => (if print then String "." buf else buf, v)
  | S p =>
      let digit := (v mod 10)%N in
      let print := print || negb (digit =? 0)%N in
      fmtFrac p (if print then String (Fmt.digit digit) buf else buf)
        print (v / 10)%N
  end.

(** [fmtInt]: [v] in decimal, written in front of [buf]. *)
Definition fmtInt (buf : string) (v : N) : string :=
  NilZero.string_of_uint (N.to_uint v) +:+ buf.

(** The two bytes of the micro sign. *)
Definition micro : string :=
  String (ascii_of_N 194) (String (ascii_of_N 181) EmptyString).

(** [Duration.String], which is what [%v] prints for a duration. *)
Definition String (dur : t) : string :=
  let u := Z.abs_N dur in
  let body :=
    if (u <? 1000000000)%N then
      if (u =? 0)%N then "0s"
      else if (u <? 1000)%N then
        let '(buf, u) := fmtFrac 0 "ns" false u in fmtInt buf u
      else if (u <? 1000000)%N then
        let '(buf, u) := fmtFrac 3 (micro +:+ "s") false u in fmtInt buf u
      else
        let '(buf, u) := fmtFrac 6 "ms" false u in fmtInt buf u
    else
      let '(buf, u) := fmtFrac 9 "s" false u in
      let buf := fmtInt buf (u mod 60)%N in
      let u := (u / 60)%N in
      if (0 <? u)%N then
        let buf := fmtInt (String.String "m" buf) (u mod 60)%N in
        let u := (u / 60)%N in
        if (0 <? u)%N then fmtInt (String.String "h" buf) u else buf
      else buf in
  if (dur <? 0)%Z then String.String "-" body else body.

End Duration.

(** ** Package [unicode/utf8] and [unicode.IsSpace] *)

Module Utf8.

#[local] Open Scope N_scope.

Definition rune := N.

Definition RuneError : rune := 0xFFFD.

(** One entry of the table [first]: an ASCII byte, an invalid first byte,
    or the first byte of a sequence of [size] bytes whose second byte lies
    in the accept range [lo..hi]. *)
Inductive entry : Type :=
| as_
| xx
| lead (size : nat) (lo hi : N).

Definition locb : N := 0x80.
Definition hicb : N := 0xBF.

Definition first (b : N) : entry :=
  if b <? 0x80 then as_
  else if b <? 0xC2 then xx
  else if b <? 0xE0 then lead 2 locb hicb
  else if b =? 0xE0 then lead 3 0xA0 hicb
  else if b <? 0xED then lead 3 locb hicb
  else if b =? 0xED then lead 3 locb 0x9F
  else if b <? 0xF0 then lead 3 locb hicb
  else if b =? 0xF0 then lead 4 0x90 hicb
  else if b <? 0xF4 then lead 4 locb hicb
  else if b =? 0xF4 then lead 4 locb 0x8F
  else xx.

Definition mask2 : N := 0x1F.
Definition mask3 : N := 0x0F.
Definition mask4 : N := 0x07.
Definition maskx : N := 0x3F.

(** [s[i]], read only where the index is known to be in range. *)
Definition at_ (s : list ascii) (i : nat) : N :=
  N_of_ascii (nth i s Ascii.zero).

(** [utf8.DecodeRuneInString]: the first rune of [s] and its width in
    bytes; an invalid or truncated encoding is [RuneError] of width 1. *)
Definition DecodeRuneInString (s : list ascii) : rune * nat :=
  if (length s <? 1)%nat then (RuneError, 0%nat)
  else
    let s0 := at_ s 0 in
    match first s0 with
    | as_ => (s0, 1%nat)
    | xx => (RuneError, 1%nat)
    | lead sz lo hi =>
        if (length s <? sz)%nat then (RuneError, 1%nat)
        else
          let s1 := at_ s 1 in
          if (s1 <? lo) || (hi <? s1) then (RuneError, 1%nat)
          else if (sz <=? 2)%nat then
            (N.lor (N.shiftl (N.land s0 mask2) 6) (N.land s1 maskx), 2%nat)
          else
            let s2 := at_ s 2 in
            if (s2 <? locb) || (hicb <? s2) then (RuneError, 1%nat)
            else if (sz <=? 3)%nat then
              (N.lor (N.lor (N.shiftl (N.land s0 mask3) 12)
                            (N.shiftl (N.land s1 maskx) 6))
                     (N.land s2 maskx), 3%nat)
            else
              let s3 := at_ s 3 in
              if (s3 <? locb) || (hicb <? s3) then (RuneError, 1%nat)
              else
                (N.lor (N.lor (N.lor (N.shiftl (N.land s0 mask4) 18)
                                     (N.shiftl (N.land s1 maskx) 12))
                              (N.shiftl (N.land s2 maskx) 6))
                       (N.land s3 maskx), 4%nat)
    end.

(** [unicode.IsSpace]: the Latin-1 switch, then the [White_Space] table. *)
Definition IsSpace (r : rune) : bool :=
  if r <=? 0xFF then
    ((0x09 <=? r) && (r <=? 0x0D)) || (r =? 0x20) || (r =? 0x85)
    || (r =? 0xA0)
  else
    (r =? 0x1680) || ((0x2000 <=? r) && (r <=? 0x200A))
    || ((0x2028 <=? r) && (r <=? 0x2029)) || (r =? 0x202F)
    || (r =? 0x205F) || (r =? 0x3000).

(** A continuation byte: one that can only occur inside an encoding. *)
Definition isCont (b : ascii) : bool :=
  (locb <=? N_of_ascii b) && (N_of_ascii b <=? hicb).

(** A string at whose start no encoding begun earlier can continue: it is
    empty or begins with a byte that is not a continuation byte. *)
Definition boundary (X : list ascii) : Prop :=
  match X with
  | [] => True
  | b :: _ => isCont b = false
  end.

End Utf8.

(** ** Package [strings] *)

Module Strings.

(** The loop of [strings.FieldsFunc] over the runes of [s]: [start] is the
    field being read ([None] where the Go code has [start < 0]), and a
    field is emitted at the first rune satisfying [f] after it, or at the
    end of the string. *)
Equations? fieldsLoop (f : Utf8.rune -> bool) (start : option (list ascii))
  (s : list ascii) : list (list ascii) by wf (length s) lt :=
  fieldsLoop f start [] :=
    match start with Some fld => [fld] | None => [] end;
  fieldsLoop f start (b :: s') :=
    let '(r, size) := Utf8.DecodeRuneInString (b :: s') in
    if f r then
      match start with
      | Some fld => fld :: fieldsLoop f None (skipn (size - 1) s')
      | None => fieldsLoop f None (skipn (size - 1) s')
      end
    else
      fieldsLoop f
        (Some (match start with
               | Some fld => fld ++ b :: firstn (size - 1) s'
               | None => b :: firstn (size - 1) s'
               end))
        (skipn (size - 1) s').
Proof.
  all: rewrite length_skipn; simpl; lia.
Qed.

Definition FieldsFunc (s : string) (f : Utf8.rune -> bool) : list string :=
  map string_of_list_ascii (fieldsLoop f None (list_ascii_of_string s)).

(** [strings.Fields]: the maximal substrings of [s] free of white space,
    as [unicode.IsSpace] defines it. *)
Definition Fields (s : string) : list string :=
  FieldsFunc s Utf8.IsSpace.

(** [strings.Join]. *)
Fixpoint Join (elems : list string) (sep : string) : string :=
  match elems with
  | [] => EmptyString
  | [e] => e
  | e :: rest => e +:+ sep +:+ Join rest sep
  end.

(** [Join] on byte lists. *)
Fixpoint joinBytes (elems : list (list ascii)) (sep : list ascii)
  : list ascii :=
  match elems with
  | [] => []
  | [e] => e
  | e :: rest => e ++ sep ++ joinBytes rest sep
  end.

Definition spaceByte : ascii := ascii_of_N 32.

(** [plainIn X t]: read in front of [X], the bytes [t] decode into whole
    runes none of which is white space. *)
Inductive plainIn (X : list ascii) : list ascii -> Prop :=
| plain_nil : plainIn X []
| plain_rune b s r w :
    Utf8.DecodeRuneInString (b :: s ++ X) = (r, w) ->
    Utf8.IsSpace r = false ->
    w - 1 <= length s ->
    plainIn X (skipn (w - 1) s) ->
    plainIn X (b :: s).

(** What a field of [Fields] is: not empty, and free of white space when
    read on its own. *)
Definition field (t : list ascii) : Prop := t <> [] /\ plainIn [] t.

(** The field being read, once [t] is added to it. *)
Definition pending (start : option (list ascii)) (t : list ascii)
  : list ascii :=
  match start with
  | Some fld => fld ++ t
  | None => t
  end.

End Strings.

(** ** Dynamic values and the MCP data types *)

(** A Go [interface{}] holding a decoded JSON document: [nil], [bool],
    [float64] (kept by its IEEE 754 bit pattern, which the programs never
    inspect), [string], [[]interface{}] and [map[string]interface{}]. *)
Inductive GoValue : Type :=
| VNil
| VBool (b : bool)
| VFloat64 (bits : Z)
| VString (s : string)
| VSlice (l : list GoValue)
| VMap (m : gmap string GoValue).

(** The line feed that the Go sources write as a backslash followed by n. *)
Definition nl : string := String (ascii_of_N 10) EmptyString.

(** The double quote. *)
Definition dq : string := String (ascii_of_N 34) EmptyString.

Module Mcp.

(** The content blocks of a tool result; the server of this repository
    only ever produces text blocks. *)
Inductive Content : Type :=
| TextContent (type_ text : string)
| ImageContent (type_ data mimeType : string).

Record CallToolResult : Type := mkCallToolResult {
  Content_ : list Content;
  IsError : bool
}.

(** The zero value [mcp.CallToolResult{}]. *)
Definition emptyResult : CallToolResult :=
  {| Content_ := []; IsError := false |}.

(** [mcp.NewToolResultText]. *)
Definition NewToolResultText (text : string) : CallToolResult :=
  {| Content_ := [TextContent "text" text]; IsError := false |}.

(** [mcp.CallToolRequest], by its [Params.Name] and [Params.Arguments]. *)
Record CallToolRequest : Type :=
  mkCallToolRequest { Name : string; Arguments : GoValue }.

(** [mcp.Tool], by the fields the programs read. *)
Record Tool : Type := mkTool {
  ToolName : string;
  ToolDescription : string
}.

End Mcp.

(** ** The server: [handleCommandExecution] *)

Module Server.

Import Mcp.

(** What [cmd.Run] returned: [nil], an [*exec.ExitError] (whose
    [ExitCode] is -1 for a child ended by a signal), or another error,
    given by its message. *)
Inductive RunError : Type :=
| NoError
| ExitError (code : Z)
| OtherError (msg : string).

(** [ctx.Err()] of the context derived by [context.WithTimeout]. *)
Inductive CtxError : Type :=
| CtxNil
| Canceled
| DeadlineExceeded.

(** One run of the child process, as the handler observes it. *)
Record RunResult : Type := mkRunResult {
  runErr : RunError;
  ctxErr : CtxError;
  stdout : string;
  stderr : string
}.

(** The effects of the handler, in the order it performs them: a line
    written to the console, and [cmd.Run], the one place where a child
    process is started. *)
Inductive Event : Type :=
| Printed (line : string)
| Spawned (name : string) (args : list string) (timeout : Duration.t).

(** The pair returned by the handler, and the effects it performed. *)
Record Outcome : Type := mkOutcome {
  result : CallToolResult;
  err : option string;
  trace : list Event
}.

Definition isSpawn (e : Event) : bool :=
  match e with Spawned _ _ _ => true | Printed _ => false end.

(** How many child processes a trace starts. *)
Definition spawns (tr : list Event) : nat :=
  length (List.filter isSpawn tr).

(** A call that fails before any child is started: the handler returns the
    empty result and the given message, and has performed no effect. *)
Definition rejects (o : Outcome) (msg : string) : Prop :=
  result o = emptyResult /\ err o = Some msg /\ trace o = []
  /\ spawns (trace o) = 0.

Definition noOutput : string :=
  "Command executed successfully with no output".

Section Handler.

(** The parent context of a call, and the operating system: what
    running [name args] under a deadline of [timeout] yields. *)
Variable Ctx : Type.
Variable run : Ctx -> string -> list string -> Duration.t -> RunResult.

Definition handleCommandExecution (ctx : Ctx) (request : CallToolRequest)
  (commandName : string) (timeout : Duration.t) : Outcome :=
  match Arguments request with
  | VMap args =>
      match args !! "arguments" with
      | Some (VString cmdArgs) =>
          let commandArgs := Strings.Fields cmdArgs in
          let tr :=
            [Printed ("executing command: " +:+ commandName +:+ " "
                      +:+ Strings.Join commandArgs " " +:+ nl);
             Spawned commandName commandArgs timeout] in
          let cmd := run ctx commandName commandArgs timeout in
          match runErr cmd with
          | ExitError code =>
              let msg := commandName +:+ " exited with code " +:+ Fmt.d code
                         +:+ ": " +:+ stderr cmd in
              {| result := emptyResult; err := Some msg;
                 trace := tr ++ [Printed (msg +:+ nl)] |}
          | OtherError e =>
              match ctxErr cmd with
              | DeadlineExceeded =>
                  let msg := commandName +:+ " command timed out after "
                             +:+ Duration.String timeout in
                  {| result := emptyResult; err := Some msg;
                     trace := tr ++ [Printed (msg +:+ nl)] |}
              | _ =>
                  let msg := commandName +:+ " execution failed: " +:+ e
                             +:+ nl +:+ "stderr: " +:+ stderr cmd in
                  {| result := emptyResult; err := Some msg;
                     trace := tr ++ [Printed msg] |}
              end
          | NoError =>
              let output := stdout cmd in
              let output :=
                if String.eqb output EmptyString then noOutput else output in
              {| result := NewToolResultText output; err := None;
                 trace := tr |}
          end
      | _ =>
          {| result := emptyResult;
             err := Some ("missing or invalid " +:+ commandName
                          +:+ " argument");
             trace := [] |}
      end
  | _ =>
      {| result := emptyResult; err := Some "invalid arguments format";
         trace := [] |}
  end.

(** The handlers that [main] registers, by tool name: both run their
    command with a timeout of thirty seconds. *)
Definition registeredTools
  : list (string * (Ctx -> CallToolRequest -> Outcome)) :=
  [("k8sgpt",
    fun ctx req =>
      handleCommandExecution ctx req "k8sgpt" (30 * Duration.Second)%Z);
   ("kubectl",
    fun ctx req =>
      handleCommandExecution ctx req "kubectl" (30 * Duration.Second)%Z)].

End Handler.

End Server.

(** ** The client: [runPrompt] *)

Module OpenAI.

(** [ChatCompletionMessageToolCall], by its [Function] field. *)
Record ToolCall : Type := mkToolCall {
  FunctionName : string;
  FunctionArguments : string
}.

Record ChatCompletionMessage : Type := mkMessage {
  Role : string;
  Content : string;
  ToolCalls : list ToolCall
}.

Record Choice : Type := mkChoice { Message : ChatCompletionMessage }.

Record ChatCompletion : Type := mkCompletion { Choices : list Choice }.

(** [ChatCompletionMessageParamUnion], by the three ways the client
    builds one. *)
Inductive MessageParam : Type :=
| SystemMessage (text : string)
| UserMessage (text : string)
| ToParam (m : ChatCompletionMessage).

Record FunctionDefinitionParam : Type :=
  mkFunction { Name : string; Description : string; Parameters : GoValue }.

Record ChatCompletionToolParam : Type :=
  mkToolParam { Function : FunctionDefinitionParam }.

Record ChatCompletionNewParams : Type := mkParams {
  Messages : list MessageParam;
  Tools : list ChatCompletionToolParam;
  Seed : Z;
  Model : string
}.

Definition ChatModelGPT4oMini : string := "gpt-4o-mini".

(** [params.Messages = append(params.Messages, m)]. *)
Definition appendMessage (p : ChatCompletionNewParams) (m : MessageParam)
  : ChatCompletionNewParams :=
  {| Messages := Messages p ++ [m]; Tools := Tools p; Seed := Seed p;
     Model := Model p |}.

End OpenAI.

Module Client.

Import Mcp OpenAI.

Definition systemPrompt : string :=
  Strings.Join
    ["You are an expert Kubernetes engineer with deep knowledge of cluster operations, troubleshooting, and best practices. Your primary goal is to understand the user's intent and respond appropriately.";
     EmptyString;
     "IMPORTANT: Only provide analysis or interpretation when explicitly asked. For all other requests, just return the raw output.";
     EmptyString;
     "When executing commands:";
     "- Plan your tool calls efficiently to minimize the number of calls needed";
     "- Once you have obtained the requested information, return it immediately";
     "- Do not make additional tool calls if you already have the information";
     "- Do not repeat the same tool call unless absolutely necessary";
     "- Consider combining commands where possible to reduce the number of calls";
     EmptyString;
     "When the user wants you to fix issues or take action:";
     "- Use k8sgpt tool to get an initial analysis which should include a list of issues and a summary of the issues.";
     "- Use kubectl tool to implement the necessary fixes. Do not use "
       +:+ dq +:+ "kubectl edit  " +:+ dq +:+ " command rather use "
       +:+ dq +:+ "kubectl path" +:+ dq +:+ " command to fix the issues.";
     "- Verify the fixes worked";
     "- Report back on what was fixed";
     "- Do not provide analysis or steps unless specifically requested";
     EmptyString;
     "When the user wants just to know if there is an issue with the cluster:";
     "- Do not make any changes to the cluster unless the user explicitly asks you to do so.";
     "- Use k8sgpt tool to get an initial analysis";
     "- Use kubectl tool to get more detailed information";
     "- Provide a clear, human-friendly explanation of the issues";
     "- If asked provide a step-by-step plan to fix each issues";
     "- If asked provide specific kubectl commands that would be needed to fix the issues";
     EmptyString;
     "When the user asks for specific information (like logs, status, etc.):";
     "- Execute the requested command and return ONLY the raw output";
     "- DO NOT analyze or interpret the output";
     "- DO NOT add any explanations or summaries";
     "- DO NOT format or modify the output";
     "- If the user wants analysis, they will explicitly ask for it";
     EmptyString;
     "Pay close attention to the user's exact request and whether they want you to make changes or just provide suggestions. Always provide clear explanations and consider security, performance, and reliability in your recommendations."]
    nl.

(** The schema every tool is declared with: an object with one required
    string property, [arguments]. *)
Definition toolParameters : GoValue :=
  VMap (<["type" := VString "object"]>
        (<["properties" :=
             VMap (<["arguments" :=
                       VMap (<["type" := VString "string"]> ∅)]> ∅)]>
         (<["required" := VSlice [VString "arguments"]]> ∅))).

Definition toolDefinition (tool : Tool) : ChatCompletionToolParam :=
  {| Function := {| Name := ToolName tool;
                    Description := ToolDescription tool;
                    OpenAI.Parameters := toolParameters |} |}.

(** The lines and notes of [runPrompt], by the place that writes them. *)
Definition answerLine (content : string) (iteration : nat) : string :=
  nl +:+ "Got LLM response: " +:+ content +:+ nl +:+ "Task completed after "
  +:+ Fmt.d (Z.of_nat iteration - 1) +:+ " iterations" +:+ nl.

Definition doneLine (iteration : nat) : string :=
  nl +:+ "No more tool calls, task completed after "
  +:+ Fmt.d (Z.of_nat iteration - 1) +:+ " iterations" +:+ nl.

Definition exhaustedLine (maxIterations : nat) : string :=
  nl +:+ "Reached maximum iterations (" +:+ Fmt.d (Z.of_nat maxIterations)
  +:+ ") without completing the task" +:+ nl.

Definition parseNote (e : string) : string :=
  "Error parsing tool arguments: " +:+ e +:+ ". Please try again with valid JSON.".

Definition failureNote (e : string) : string :=
  "Tool execution failed with error: " +:+ e +:+ nl
  +:+ "Please try a different approach.".

(** The hint appended after every tool result. *)
Definition returnHint : string :=
  "If you have obtained the requested information. Please return it directly to the user without making additional tool calls.".

(** The effects of the loop, in the order it performs them. *)
Inductive Event : Type :=
| Requested (p : ChatCompletionNewParams)
| Called (timeout : Duration.t) (req : CallToolRequest)
| Slept (d : Duration.t)
| Printed (text : string).

(** How a run ends: [runPrompt] returns its error, or the program
    panics on an index out of range. *)
Inductive Exit : Type :=
| Returned (e : option string)
| Panicked.

Definition isRequest (e : Event) : bool :=
  match e with Requested _ => true | _ => false end.

Definition isCall (e : Event) : bool :=
  match e with Called _ _ => true | _ => false end.

Definition isPrint (e : Event) : bool :=
  match e with Printed _ => true | _ => false end.

(** The rounds of a run: one request to the oracle opens each. *)
Definition requests (tr : list Event) : nat :=
  length (List.filter isRequest tr).

(** The tool invocations of a run. *)
Definition calls (tr : list Event) : nat :=
  length (List.filter isCall tr).

(** What a run writes to the console. *)
Definition printed (tr : list Event) : list Event :=
  List.filter isPrint tr.

Section Loop.

(** The collaborators of the loop. [World] is whatever state they keep
    between calls; [chat] is [client.Chat.Completions.New], [callTool]
    is [mcpClient.CallTool] under a context with the given timeout,
    [unmarshal] is [json.Unmarshal] into a [map[string]interface{}],
    and [formatContent] is what [%v] prints for a [[]mcp.Content]. *)
Variable World : Type.
Variable Ctx : Type.
Variable chat :
  World -> Ctx -> ChatCompletionNewParams -> World * (ChatCompletion + string).
Variable callTool :
  World -> Ctx -> Duration.t -> CallToolRequest ->
  World * (option CallToolResult * option string).
Variable unmarshal : string -> gmap string GoValue + string.
Variable formatContent : list Mcp.Content -> string.

(** The state a run threads through its rounds: the collaborators'
    state, the request under construction (whose [Messages] grow), and
    the effects so far. *)
Record State : Type := mkState {
  world : World;
  params : ChatCompletionNewParams;
  trace : list Event
}.

Definition emit (st : State) (e : Event) : State :=
  {| world := world st; params := params st; trace := trace st ++ [e] |}.

Definition append (st : State) (m : MessageParam) : State :=
  {| world := world st; params := appendMessage (params st) m;
     trace := trace st |}.

Definition systemNote (text : string) : MessageParam :=
  ToParam {| Role := "system"; Content := text; ToolCalls := [] |}.

(** The body of the loop over the tool calls of one response. *)
Definition toolCallStep (ctx : Ctx) (iteration : nat) (st : State)
  (toolCall : ToolCall) : State :=
  let st := emit st (Printed ("Iteration " +:+ Fmt.d (Z.of_nat iteration)
                              +:+ " - Tool call: "
                              +:+ FunctionName toolCall +:+ nl)) in
  let st := emit st (Printed ("Tool call arguments: "
                              +:+ FunctionArguments toolCall +:+ nl)) in
  match unmarshal (FunctionArguments toolCall) with
  | inr e =>
      append st (systemNote (parseNote e))
  | inl args =>
      let req :=
        {| Mcp.Name := FunctionName toolCall; Arguments := VMap args |} in
      let timeout := (30 * Duration.Second)%Z in
      let '(w, (toolResultPtr, e)) := callTool (world st) ctx timeout req in
      let st := {| world := w; params := params st;
                   trace := trace st ++ [Called timeout req] |} in
      match e with
      | Some e =>
          let st := emit st (Printed ("tool execution failed or timeout: "
                                      +:+ e +:+ nl)) in
          let st := emit st (Printed ("sleeping for 2 seconds, before retrying"
                                      +:+ nl)) in
          let st := emit st (Slept (2 * Duration.Second)%Z) in
          append st (systemNote (failureNote e))
      | None =>
          match toolResultPtr with
          | Some toolResult =>
              if (0 <? length (Content_ toolResult))%nat then
                let st := emit st (Printed ("Tool result content: "
                                            +:+ formatContent (Content_ toolResult)
                                            +:+ nl)) in
                let toolResultMsg := formatContent (Content_ toolResult) in
                let st := append st (ToParam {| Role := "assistant";
                                                Content := toolResultMsg;
                                                ToolCalls := [] |}) in
                append st (systemNote returnHint)
              else st
          | None => st
          end
      end
  end.

(** What one round of the loop does: leave [runPrompt], or fall through
    to the increment of the counter. *)
Inductive Round : Type :=
| Leave (x : Exit) (st : State)
| Next (st : State).

Definition round (ctx : Ctx) (iteration : nat) (st : State) : Round :=
  let '(w, reply) := chat (world st) ctx (params st) in
  let st := {| world := w; params := params st;
               trace := trace st ++ [Requested (params st)] |} in
  match reply with
  | inr e => Leave (Returned (Some ("failed to create chat completion: " +:+ e))) st
  | inl completion =>
      match Choices completion with
      | [] => Leave Panicked st
      | choice :: _ =>
          if negb (String.eqb (Content (Message choice)) EmptyString) then
            Leave (Returned None)
              (emit st (Printed (answerLine (Content (Message choice))
                                            iteration)))
          else
            let toolCalls := ToolCalls (Message choice) in
            if (length toolCalls =? 0)%nat then
              Leave (Returned None) (emit st (Printed (doneLine iteration)))
            else
              let st := emit st (Printed ("checking for tool calls" +:+ nl)) in
              Next (fold_left (toolCallStep ctx iteration) toolCalls st)
      end
  end.

(** The [for iteration < maxIterations] loop and the two statements
    after it. *)
Equations? loop (ctx : Ctx) (maxIterations iteration : nat) (st : State)
  : Exit * State by wf (maxIterations - iteration) lt :=
  loop ctx maxIterations iteration st with lt_dec iteration maxIterations => {
    | left _ with round ctx iteration st => {
        | Leave x st' => (x, st');
        | Next st' => loop ctx maxIterations (S iteration) st' };
    | right _ =>
        (Returned None, emit st (Printed (exhaustedLine maxIterations))) }.
Proof. lia. Qed.

(** The request [runPrompt] starts from: the system prompt, the
    question, and one declaration per available tool. *)
Definition initialParams (question : string) (listToolsResult : list Tool)
  : ChatCompletionNewParams :=
  let toolDefinitions := map toolDefinition listToolsResult in
  {| Messages := [SystemMessage systemPrompt; UserMessage question];
     Tools := toolDefinitions;
     Seed := 0;
     Model := ChatModelGPT4oMini |}.

Definition runPrompt (w : World) (question : string)
  (listToolsResult : list Tool) (ctx : Ctx) : Exit * State :=
  let params := initialParams question listToolsResult in
  let maxIterations := 5 in
  let iteration := 1 in
  loop ctx maxIterations iteration
    {| world := w; params := params; trace := [] |}.

(** An oracle that, whatever it is sent, answers with no text and at least
    one tool call. *)
Definition alwaysDispatches (ctx : Ctx) : Prop :=
  forall w p, exists w' ch rest,
    chat w ctx p = (w', inl {| Choices := ch :: rest |})
    /\ Content (Message ch) = EmptyString
    /\ ToolCalls (Message ch) <> [].

(** An oracle whose responses carry exactly one tool call each. *)
Definition oneIntentPerRound (ctx : Ctx) : Prop :=
  forall w p w' c ch rest,
    chat w ctx p = (w', inl c) -> Choices c = ch :: rest ->
    length (ToolCalls (Message ch)) = 1.

End Loop.

Arguments world {World} _.
Arguments params {World} _.
Arguments trace {World} _.
Arguments mkState {World} _ _ _.
Arguments Leave {World} _ _.
Arguments Next {World} _.
Arguments emit {World} _ _.
Arguments append {World} _ _.

End Client.


(** ** Sample inputs and collaborators *)

Module Samples.

Import Mcp OpenAI.

(** A call of [tool] with the given argument string. *)
Definition callWith (tool arguments : string) : CallToolRequest :=
  {| Mcp.Name := tool;
     Mcp.Arguments := VMap {[ "arguments" := VString arguments ]} |}.

(** A call whose payload is a mapping without the field [arguments]. *)
Definition callWithout (tool : string) : CallToolRequest :=
  {| Mcp.Name := tool; Mcp.Arguments := VMap {[ "args" := VString "get pods" ]} |}.

(** A child that exits with status 0 after writing [out]. *)
Definition completes (out : string)
  : unit -> string -> list string -> Duration.t -> Server.RunResult :=
  fun _ _ _ _ =>
    {| Server.runErr := Server.NoError; Server.ctxErr := Server.CtxNil;
       Server.stdout := out; Server.stderr := EmptyString |}.

(** A child that exits with status [code] after writing [errOut] to its
    standard error. *)
Definition exits (code : Z) (errOut : string)
  : unit -> string -> list string -> Duration.t -> Server.RunResult :=
  fun _ _ _ _ =>
    {| Server.runErr := Server.ExitError code; Server.ctxErr := Server.CtxNil;
       Server.stdout := EmptyString; Server.stderr := errOut |}.

(** A child that is still running when the deadline passes:
    [exec.CommandContext] kills it, [cmd.Run] returns the [*exec.ExitError]
    of a process ended by a signal, whose [ExitCode] is -1, and the context
    reports [DeadlineExceeded]. *)
Definition outlivesDeadline
  : unit -> string -> list string -> Duration.t -> Server.RunResult :=
  fun _ _ _ _ =>
    {| Server.runErr := Server.ExitError (-1);
       Server.ctxErr := Server.DeadlineExceeded;
       Server.stdout := EmptyString; Server.stderr := EmptyString |}.

(** The tool call [kubectl] with the argument string [get pods]. *)
Definition podsCall : ToolCall :=
  {| FunctionName := "kubectl";
     FunctionArguments :=
       "{" +:+ dq +:+ "arguments" +:+ dq +:+ ":" +:+ dq +:+ "get pods" +:+ dq
       +:+ "}" |}.

Definition choice (content : string) (toolCalls : list ToolCall) : Choice :=
  {| Message := {| Role := "assistant"; Content := content;
                   ToolCalls := toolCalls |} |}.

Definition dispatchChoice : Choice := choice EmptyString [podsCall].
Definition answerChoice : Choice := choice "3 pods are running" [podsCall].
Definition silentChoice : Choice := choice EmptyString [].

(** Oracles over a world that counts the requests made so far: one that only
    ever asks for [podsCall], one that answers at once (and asks for a tool
    call in the same response), and one that answers with nothing. *)
Definition dispatching
  : nat -> unit -> ChatCompletionNewParams -> nat * (ChatCompletion + string) :=
  fun w _ _ => (S w, inl {| Choices := [dispatchChoice] |}).

Definition answering
  : nat -> unit -> ChatCompletionNewParams -> nat * (ChatCompletion + string) :=
  fun w _ _ => (S w, inl {| Choices := [answerChoice] |}).

Definition silent
  : nat -> unit -> ChatCompletionNewParams -> nat * (ChatCompletion + string) :=
  fun w _ _ => (S w, inl {| Choices := [silentChoice] |}).

(** Tool services: one whose calls fail, one whose results are empty, and
    one that lists a pod. *)
Definition failing
  : nat -> unit -> Duration.t -> CallToolRequest ->
    nat * (option CallToolResult * option string) :=
  fun w _ _ _ => (w, (None, Some "transport closed")).

Definition blank
  : nat -> unit -> Duration.t -> CallToolRequest ->
    nat * (option CallToolResult * option string) :=
  fun w _ _ _ => (w, (Some emptyResult, None)).

Definition listing
  : nat -> unit -> Duration.t -> CallToolRequest ->
    nat * (option CallToolResult * option string) :=
  fun w _ _ _ => (w, (Some (NewToolResultText "web-1 Running"), None)).

(** A decoder that reads every payload as that of [podsCall]. *)
Definition decode : string -> gmap string GoValue + string :=
  fun _ => inl {[ "arguments" := VString "get pods" ]}.

Definition contentText (c : Mcp.Content) : string :=
  match c with
  | TextContent _ text => text
  | ImageContent _ _ _ => "image"
  end.

Definition show (l : list Mcp.Content) : string :=
  "[" +:+ Strings.Join (map contentText l) " " +:+ "]".

Definition kubectl : Tool :=
  {| ToolName := "kubectl"; ToolDescription := "Use 'kubectl' command" |}.

Definition question : string := "are all pods running?".

(** The state in which [runPrompt] enters its loop. *)
Definition firstState : Client.State nat :=
  {| Client.world := 0;
     Client.params := Client.initialParams question [kubectl];
     Client.trace := [] |}.

(** Two whole runs: against the oracle that only asks for tool calls and
    against the one that answers with nothing. *)
Definition dispatchingRun : Client.Exit * Client.State nat :=
  Client.runPrompt nat unit dispatching listing decode show 0 question
    [kubectl] tt.

Definition silentRun : Client.Exit * Client.State nat :=
  Client.runPrompt nat unit silent listing decode show 0 question [kubectl] tt.

(** The handler run on [kubectl logs -f web], a command that does not end
    before its deadline of thirty seconds. *)
Definition deadlineRun : Server.Outcome :=
  Server.handleCommandExecution unit outlivesDeadline tt
    (callWith "kubectl" "logs -f web") "kubectl" (30 * Duration.Second)%Z.

End Samples.


(** ** Vocabulary for the properties of the tokenizer and of the loop *)

Module StringsSpec.

(** The table [asciiSpace] of package [strings]: tab, line feed, vertical
    tab, form feed, carriage return and space. *)
Definition asciiSpace (c : ascii) : bool :=
  let n := N_of_ascii c in
  (((9 <=? n) && (n <=? 13)) || (n =? 32))%N.

(** An ASCII byte ([c < utf8.RuneSelf]). *)
Definition isASCII (c : ascii) : bool := (N_of_ascii c <? 128)%N.

(** An ASCII byte that is not white space. *)
Definition plainByte (c : ascii) : bool := isASCII c && negb (asciiSpace c).

End StringsSpec.

Module ClientSpec.

Import Mcp OpenAI Client.

Definition isSleep (e : Event) : bool :=
  match e with Slept _ => true | _ => false end.

(** The pauses of a run. *)
Definition sleeps (tr : list Event) : nat :=
  length (List.filter isSleep tr).

(** The tools a run invokes, by name, in the order of the calls. *)
Definition calledNames (tr : list Event) : list string :=
  flat_map (fun e => match e with
                     | Called _ req => [Mcp.Name req]
                     | _ => []
                     end) tr.

(** [p] is [p0] with messages appended: same tools, seed and model, and the
    messages of [p0] in front. *)
Definition extends (p0 p : ChatCompletionNewParams) : Prop :=
  Tools p = Tools p0 /\ Seed p = Seed p0 /\ Model p = Model p0
  /\ exists more, Messages p = Messages p0 ++ more.



(** What every effect of a run that started from [p0] looks like. *)
Definition wellFormed (p0 : ChatCompletionNewParams) (e : Event) : Prop :=
  match e with
  | Requested p => extends p0 p
  | Called timeout req =>
      timeout = (30 * Duration.Second)%Z
      /\ exists m, Mcp.Arguments req = VMap m
  | Slept d => d = (2 * Duration.Second)%Z
  | Printed _ => True
  end.

(** What holds of a state all along a run that started from [p0]. *)
Definition sound {World : Type} (p0 : ChatCompletionNewParams)
  (st : State World) : Prop :=
  extends p0 (params st) /\ Forall (wellFormed p0) (trace st).

(** The state a round leaves, whichever way it goes. *)
Definition after {World : Type} (r : Round World) : State World :=
  match r with
  | Leave _ st => st
  | Next st => st
  end.

(** Whether the argument payload of a tool call decodes. *)
Definition decodable (unmarshal : string -> gmap string GoValue + string)
  (tc : ToolCall) : bool :=
  match unmarshal (FunctionArguments tc) with
  | inl _ => true
  | inr _ => false
  end.

End ClientSpec.

(** ** The client: [main] *)

Module ClientMain.

Import Mcp OpenAI Client.

Definition MCPEndpoint : string := "http://localhost:8090/sse".

(** [mcp.InitializeRequest], by the fields [main] sets. *)
Record InitializeRequest : Type := mkInitializeRequest {
  ProtocolVersion : string;
  ClientName : string;
  ClientVersion : string
}.

(** [InitializeResult.ServerInfo]. *)
Record ServerInfo : Type := mkServerInfo {
  ServerName : string;
  ServerVersion : string
}.

(** The effects of [main], in the order it performs them: a text written to
    the console, an effect of a call of [runPrompt], and the deferred
    [mcpClient.Close]. *)
Inductive Event : Type :=
| Wrote (text : string)
| Ran (e : Client.Event)
| Closed.

(** How [main] ends: it returns, it exits through [log.Fatal] or
    [log.Fatalf] (which skip the deferred calls), or [runPrompt] panics. *)
Inductive Exit : Type :=
| Exited
| Fatal (msg : string)
| Panicked.

Definition isRan (e : Event) : bool :=
  match e with Ran _ => true | _ => false end.

(** The requests to the oracle among the effects of [main]. *)
Definition oracleRequests (tr : list Event) : nat :=
  length (List.filter
            (fun e => match e with Ran (Requested _) => true | _ => false end)
            tr).


Definition enterLine : string :=
  nl +:+ "Enter your question about the Kubernetes cluster (type 'quit' to exit):"
  +:+ nl.

Section Main.

(** The collaborators of [runPrompt], and those of [main]:
    [strings.TrimSpace] and [strings.EqualFold], [context.Background()],
    [client.NewSSEMCPClient], the client's [Start], [Initialize] and
    [ListTools], [os.Getenv], and [mcp.LATEST_PROTOCOL_VERSION]. *)
Variable World : Type.
Variable Ctx : Type.
Variable chat :
  World -> Ctx -> ChatCompletionNewParams -> World * (ChatCompletion + string).
Variable callTool :
  World -> Ctx -> Duration.t -> CallToolRequest ->
  World * (option CallToolResult * option string).
Variable unmarshal : string -> gmap string GoValue + string.
Variable formatContent : list Mcp.Content -> string.
Variable TrimSpace : string -> string.
Variable EqualFold : string -> string -> bool.
Variable background : Ctx.
Variable newClient : World -> string -> World * option string.
Variable start : World -> Ctx -> World * option string.
Variable initialize :
  World -> Ctx -> InitializeRequest -> World * (ServerInfo + string).
Variable listTools : World -> Ctx -> World * (list Tool + string).
Variable getenv : string -> string.
Variable LATEST_PROTOCOL_VERSION : string.

(** The loop that reads the questions. [reads] is what
    [reader.ReadString] returns, call after call, for as long as the
    standard input lasts; the read that follows fails with [io.EOF]. *)
Fixpoint session (reads : list string) (listToolsResult : list Tool)
  (w : World) : Exit * World * list Event :=
  match reads with
  | [] => (Fatal "Error reading input: EOF", w, [Wrote enterLine])
  | question :: reads =>
      let question := TrimSpace question in
      if EqualFold question "quit" then
        (Exited, w, [Wrote enterLine; Wrote ("Exiting." +:+ nl)])
      else
        let '(x, st) :=
          runPrompt World Ctx chat callTool unmarshal formatContent w question
            listToolsResult background in
        let tr :=
          Wrote enterLine :: Wrote ("> " +:+ question +:+ nl)
          :: map Ran (trace st) in
        match x with
        | Client.Panicked => (Panicked, world st, tr)
        | Returned err =>
            let tr :=
              match err with
              | Some e => tr ++ [Wrote ("Error running prompt: " +:+ e)]
              | None => tr
              end in
            let '(x', w', tr') := session reads listToolsResult (world st) in
            (x', w', tr ++ tr')
        end
  end.


Definition initRequest : InitializeRequest :=
  {| ProtocolVersion := LATEST_PROTOCOL_VERSION;
     ClientName := "mcphost";
     ClientVersion := "0.1.0" |}.

Definition main (w : World) (reads : list string)
  : Exit * World * list Event :=
  let '(w, err) := newClient w MCPEndpoint in
  match err with
  | Some e => (Fatal ("failed to create MCP client: " +:+ e), w, [])
  | None =>
      let '(w, err) := start w background in
      match err with
      | Some e => (Fatal ("failed to start MCP client: " +:+ e), w, [])
      | None =>
          let tr := [Wrote "Initializing server..."] in
          let '(w, initResult) := initialize w background initRequest in
          match initResult with
          | inr e =>
              (Fatal ("failed to initialize MCP client: " +:+ e), w, tr)
          | inl info =>
              let tr :=
                tr ++ [Wrote ("Initialized with server: " +:+ ServerName info
                              +:+ " " +:+ ServerVersion info +:+ nl)] in
              let '(w, listToolsResult) := listTools w background in
              match listToolsResult with
              | inr e => (Fatal ("Failed to list tools: " +:+ e), w, tr)
              | inl tools =>
                  let tr :=
                    tr ++ [Wrote ("Available tools:" +:+ nl)]
                    ++ map (fun tool =>
                              Wrote ("- " +:+ ToolName tool +:+ ": "
                                     +:+ ToolDescription tool +:+ nl)) tools in
                  let OpenAIToken := getenv "OPENAI_API_KEY" in
                  if String.eqb OpenAIToken EmptyString then
                    (Fatal "OPENAI_API_KEY environment variable is not set",
                     w, tr)
                  else
                    let '(x, w, tr') := session reads tools w in
                    match x with
                    | Fatal _ => (x, w, tr ++ tr')
                    | _ => (x, w, tr ++ tr' ++ [Closed])
                    end
              end
          end
      end
  end.

End Main.

End ClientMain.

(** ** More sample collaborators *)

Module MoreSamples.

(** Three runs that fail without an exit status: the program is not on the
    path; the context is already cancelled when the child is to be started;
    the deadline has already passed when the child is to be started. *)
Definition notFound
  : unit -> string -> list string -> Duration.t -> Server.RunResult :=
  fun _ name _ _ =>
    {| Server.runErr :=
         Server.OtherError ("exec: " +:+ dq +:+ name +:+ dq
                            +:+ ": executable file not found in $PATH");
       Server.ctxErr := Server.CtxNil;
       Server.stdout := EmptyString; Server.stderr := EmptyString |}.

Definition cancelled
  : unit -> string -> list string -> Duration.t -> Server.RunResult :=
  fun _ _ _ _ =>
    {| Server.runErr := Server.OtherError "context canceled";
       Server.ctxErr := Server.Canceled;
       Server.stdout := EmptyString; Server.stderr := EmptyString |}.

Definition expiredBeforeStart
  : unit -> string -> list string -> Duration.t -> Server.RunResult :=
  fun _ _ _ _ =>
    {| Server.runErr := Server.OtherError "context deadline exceeded";
       Server.ctxErr := Server.DeadlineExceeded;
       Server.stdout := EmptyString; Server.stderr := EmptyString |}.

(** An oracle whose transport fails, and one whose completions hold no
    choice. *)
Definition unreachable
  : nat -> unit -> OpenAI.ChatCompletionNewParams ->
    nat * (OpenAI.ChatCompletion + string) :=
  fun w _ _ => (S w, inr "connection refused").

Definition choiceless
  : nat -> unit -> OpenAI.ChatCompletionNewParams ->
    nat * (OpenAI.ChatCompletion + string) :=
  fun w _ _ => (S w, inl {| OpenAI.Choices := [] |}).

(** What [%v] prints for content blocks that carry no annotations: each
    block as a struct, its embedded annotations first, the blocks in
    square brackets with a space between them. *)
Definition renderBlock (c : Mcp.Content) : string :=
  match c with
  | Mcp.TextContent type_ text =>
      "{{<nil>} " +:+ type_ +:+ " " +:+ text +:+ "}"
  | Mcp.ImageContent type_ data mimeType =>
      "{{<nil>} " +:+ type_ +:+ " " +:+ data +:+ " " +:+ mimeType +:+ "}"
  end.

Definition render (l : list Mcp.Content) : string :=
  "[" +:+ Strings.Join (map renderBlock l) " " +:+ "]".

(** A decoder that rejects every payload. *)
Definition garbled : string -> gmap string GoValue + string :=
  fun _ => inr "unexpected end of JSON input".


End MoreSamples.

(** ** Sample collaborators of [main] *)

Module MainSamples.

Import Mcp OpenAI ClientMain.

(** Stand-ins for [strings.TrimSpace] and [strings.EqualFold], enough for
    lines in lower case whose words are separated by single spaces. *)
Definition trim (s : string) : string :=
  Strings.Join (Strings.Fields s) " ".

Definition sameText (a b : string) : bool := String.eqb a b.

Definition connects : nat -> string -> nat * option string :=
  fun w _ => (w, None).

Definition starts : nat -> unit -> nat * option string :=
  fun w _ => (w, None).

Definition initializes
  : nat -> unit -> InitializeRequest -> nat * (ServerInfo + string) :=
  fun w _ _ =>
    (w, inl {| ServerName := "kubernetes-troubleshooter";
               ServerVersion := "1.0.0" |}).

Definition lists : nat -> unit -> nat * (list Tool + string) :=
  fun w _ => (w, inl [Samples.kubectl]).

Definition withKey : string -> string := fun _ => "sk-sample".
Definition withoutKey : string -> string := fun _ => EmptyString.

(** A standard input of two questions and the word that ends the session,
    with a line after it. *)
Definition twoQuestions : list string :=
  ["are all pods running?" +:+ nl; "why is web failing?" +:+ nl].

Definition quitLine : string := "quit" +:+ nl.

(** A session against the oracle whose transport fails, and the whole
    program in two settings: against the oracle that answers at once, and
    with no key in the environment. *)
Definition failingSession : ClientMain.Exit * nat * list ClientMain.Event :=
  session nat unit MoreSamples.unreachable Samples.listing Samples.decode
    Samples.show trim sameText tt (twoQuestions ++ [quitLine])
    [Samples.kubectl] 0.

Definition answeredMain : ClientMain.Exit * nat * list ClientMain.Event :=
  main nat unit Samples.answering Samples.listing Samples.decode Samples.show
    trim sameText tt connects starts initializes lists withKey "2025-03-26"
    0 (twoQuestions ++ [quitLine]).

Definition keylessMain : ClientMain.Exit * nat * list ClientMain.Event :=
  main nat unit Samples.answering Samples.listing Samples.decode Samples.show
    trim sameText tt connects starts initializes lists withoutKey "2025-03-26"
    0 (twoQuestions ++ [quitLine]).

End MainSamples.


(** * Properties *)

(** ** Strings *)

Module StringFacts.

Lemma append_cons c a b : String c a +:+ b = String c (a +:+ b).
Proof. reflexivity. Qed.

Lemma append_nil_r a : a +:+ EmptyString = a.
Proof.
  induction a as [|c a IH]; [reflexivity|].
  rewrite append_cons, IH. reflexivity.
Qed.

Lemma append_assoc a b c : (a +:+ b) +:+ c = a +:+ b +:+ c.
Proof.
  induction a as [|x a IH]; [reflexivity|].
  rewrite !append_cons, IH. reflexivity.
Qed.

Lemma embeds_middle pre t post : Fmt.embeds t (pre +:+ t +:+ post).
Proof. exists pre, post. reflexivity. Qed.

Lemma embeds_end pre t : Fmt.embeds t (pre +:+ t).
Proof. exists pre, EmptyString. rewrite append_nil_r. reflexivity. Qed.

End StringFacts.

(** ** Decoding is local *)

Module Utf8Facts.

Import Utf8.
#[local] Open Scope N_scope.

Lemma first_lead b sz lo hi :
  first b = lead sz lo hi ->
  (sz = 2 \/ sz = 3 \/ sz = 4)%nat /\ 0x80 <= lo /\ hi <= 0xBF.
Proof.
  unfold first, locb, hicb.
  repeat match goal with
    | |- context [if ?c then _ else _] => destruct c
    end;
    intros [= <- <- <-] || discriminate; repeat split; (lia || tauto).
Qed.

Ltac bounds :=
  repeat match goal with
    | H : isCont _ = false |- _ =>
        unfold isCont, locb, hicb in H; apply andb_false_iff in H;
        rewrite !N.leb_gt in H
    | H : (_ || _)%bool = false |- _ => apply orb_false_iff in H; destruct H
    | H : (_ <? _) = false |- _ => apply N.ltb_ge in H
    | H : (_ <? _) = true |- _ => apply N.ltb_lt in H
    end.

Ltac branches :=
  repeat match goal with
    | |- context [if ?c then _ else _] => destruct c eqn:?
    end.

(** What follows an encoding does not change how it decodes, as long as
    what follows cannot continue it. *)
Lemma decode_local t X :
  t <> [] -> boundary X ->
  DecodeRuneInString (t ++ X) = DecodeRuneInString t.
Proof.
  intros Ht HX. destruct t as [|b0 t]; [done|clear Ht].
  unfold DecodeRuneInString, at_. cbn [app nth].
  destruct (first (N_of_ascii b0)) as [| |sz lo hi] eqn:E; try reflexivity.
  apply first_lead in E. destruct E as (Hsz & Hlo & Hhi).
  unfold locb, hicb.
  destruct Hsz as [-> | [-> | ->]];
    destruct t as [|b1 [|b2 [|b3 t]]]; destruct X as [|x0 [|x1 [|x2 X]]];
    cbn [length app Nat.ltb Nat.leb nth boundary] in *;
    branches; try reflexivity; bounds; try lia.
Qed.

Lemma decode_width s :
  s <> [] -> (1 <= snd (DecodeRuneInString s) <= length s)%nat.
Proof.
  intros Hs. destruct s as [|b0 t]; [done|].
  unfold DecodeRuneInString, at_. cbn [app nth].
  destruct (first (N_of_ascii b0)) as [| |sz lo hi] eqn:E; try (cbn; lia).
  apply first_lead in E. destruct E as (Hsz & _).
  destruct Hsz as [-> | [-> | ->]];
    destruct t as [|b1 [|b2 [|b3 t]]];
    cbn [length app Nat.ltb Nat.leb nth] in *;
    branches; cbn; lia.
Qed.

(** White space never begins with a continuation byte. *)
Lemma space_boundary b s r w :
  DecodeRuneInString (b :: s) = (r, w) -> IsSpace r = true ->
  boundary (b :: s).
Proof.
  unfold DecodeRuneInString, at_, boundary, isCont, locb, hicb.
  cbn [app nth].
  destruct (first (N_of_ascii b)) as [| |sz lo hi] eqn:E.
  - intros [= <- <-] _. unfold first in E.
    destruct (N_of_ascii b <? 128) eqn:Hb; [apply N.ltb_lt in Hb|].
    + apply andb_false_iff. left. apply N.leb_gt. lia.
    + repeat match type of E with
        | context [if ?c then _ else _] => destruct c
        end; discriminate.
  - intros [= <- <-]. discriminate.
  - intros _ _. unfold first in E.
    repeat match type of E with
      | context [if ?c then _ else _] => destruct c eqn:?
      end;
      try discriminate; bounds; apply andb_false_iff; right;
      apply N.leb_gt; lia.
Qed.

End Utf8Facts.

(** ** Tokenization *)

Module FieldsFacts.

Import Utf8 Utf8Facts Strings.

(** White space ends a field that was free of it so far. *)
Lemma plainIn_boundary X t : boundary X -> plainIn X t -> plainIn [] t.
Proof.
  intros HX. induction 1 as [|b s r w Hd Hr Hw _ IH]; [constructor|].
  apply plain_rune with r w; auto.
  rewrite app_nil_r. rewrite <- Hd. symmetry.
  apply (decode_local (b :: s) X); [discriminate | assumption].
Qed.

(** Reading one more rune that is not white space extends the field. *)
Lemma plainIn_snoc Y c fld r :
  c <> [] -> DecodeRuneInString (c ++ Y) = (r, length c) ->
  IsSpace r = false ->
  plainIn (c ++ Y) fld -> plainIn Y (fld ++ c).
Proof.
  intros Hc Hd Hr. induction 1 as [|b s r' w Hd' Hr' Hw _ IH].
  - destruct c as [|b c]; [done|]. cbn in *.
    apply plain_rune with r (S (length c)); auto.
    + cbn. lia.
    + cbn. rewrite Nat.sub_0_r, drop_all. constructor.
  - cbn. apply plain_rune with r' w; auto.
    + rewrite <- app_assoc. exact Hd'.
    + rewrite length_app. lia.
    + rewrite drop_app_le by lia. exact IH.
Qed.

(** Everything the loop emits is a field. *)
Lemma fieldsLoop_fields s : forall start,
  (forall fld, start = Some fld -> fld <> [] /\ plainIn s fld) ->
  Forall field (fieldsLoop IsSpace start s).
Proof.
  induction s as [s IH] using (induction_ltof1 _ (@length ascii)).
  unfold ltof in IH.
  intros start Hstart. destruct s as [|b s].
  - simp fieldsLoop. destruct start as [fld|]; [|constructor].
    destruct (Hstart fld eq_refl). repeat constructor; auto.
  - rewrite fieldsLoop_equation_2.
    destruct (DecodeRuneInString (b :: s)) as [r w] eqn:Hd.
    pose proof (decode_width (b :: s) ltac:(discriminate)) as Hw.
    rewrite Hd in Hw. cbn in Hw.
    assert (Hlen : length (skipn (w - 1) s) < length (b :: s))
      by (rewrite length_skipn; cbn; lia).
    destruct (IsSpace r) eqn:Hr.
    + assert (Hrest : Forall field (fieldsLoop IsSpace None (skipn (w - 1) s)))
        by (apply IH; [exact Hlen | discriminate]).
      destruct start as [fld|]; [|exact Hrest].
      constructor; [|exact Hrest].
      destruct (Hstart fld eq_refl) as [Hne Hp]. split; [exact Hne|].
      apply plainIn_boundary with (b :: s); [|exact Hp].
      eapply space_boundary; eauto.
    + apply IH; [exact Hlen|].
      assert (Hc : DecodeRuneInString
                     ((b :: firstn (w - 1) s) ++ skipn (w - 1) s)
                   = (r, length (b :: firstn (w - 1) s))).
      { cbn [app]. rewrite take_drop, Hd. f_equal. cbn.
        rewrite length_take. lia. }
      intros fld' [= <-]. destruct start as [fld|].
      * destruct (Hstart fld eq_refl) as [Hne Hp]. split.
        -- destruct fld; [done|discriminate].
        -- apply plainIn_snoc with r; [discriminate | exact Hc | exact Hr |].
           cbn [app]. rewrite take_drop. exact Hp.
      * split; [discriminate|].
        change (b :: firstn (w - 1) s) with ([] ++ b :: firstn (w - 1) s).
        apply plainIn_snoc with r;
          [discriminate | exact Hc | exact Hr | constructor].
Qed.

(** The loop reads a field, wherever it stands, as one piece. *)
Lemma fieldsLoop_absorb X t :
  boundary X -> plainIn [] t -> t <> [] -> forall start,
  fieldsLoop IsSpace start (t ++ X)
  = fieldsLoop IsSpace (Some (pending start t)) X.
Proof.
  intros HX. induction t as [t IH] using (induction_ltof1 _ (@length ascii)).
  unfold ltof in IH.
  intros Hp Hne start.
  inversion Hp as [|b s r w Hd Hr Hw Hrest]; subst; [done|].
  rewrite app_nil_r in Hd.
  cbn [app]. rewrite fieldsLoop_equation_2.
  change (b :: s ++ X) with ((b :: s) ++ X).
  rewrite decode_local by (assumption || discriminate).
  rewrite Hd, Hr.
  rewrite drop_app_le, take_app_le by lia.
  assert (Hs : skipn (w - 1) s = [] \/ skipn (w - 1) s <> [])
    by (destruct (skipn (w - 1) s); [left; reflexivity | right; discriminate]).
  destruct Hs as [Hs | Hs].
  - rewrite Hs. cbn [app]. f_equal. f_equal.
    assert (firstn (w - 1) s = s) as ->.
    { rewrite <- (take_drop (w - 1) s) at 2.
      rewrite Hs, app_nil_r. reflexivity. }
    destruct start; reflexivity.
  - rewrite IH; [| rewrite length_skipn; cbn; lia | exact Hrest | exact Hs].
    f_equal. f_equal.
    destruct start; cbn [pending]; rewrite <- ?app_assoc; cbn [app];
      rewrite take_drop; reflexivity.
Qed.

(** Fields joined by single spaces are read back as they were. *)
Lemma fieldsLoop_join ts :
  Forall field ts ->
  fieldsLoop IsSpace None (joinBytes ts [spaceByte]) = ts.
Proof.
  induction 1 as [|t ts [Hne Hp] Hts IH]; [reflexivity|].
  destruct ts as [|t' ts].
  - cbn [joinBytes]. rewrite <- (app_nil_r t) at 1.
    rewrite fieldsLoop_absorb by (assumption || exact I). reflexivity.
  - change (joinBytes (t :: t' :: ts) [spaceByte])
      with (t ++ spaceByte :: joinBytes (t' :: ts) [spaceByte]).
    rewrite fieldsLoop_absorb by (assumption || reflexivity).
    rewrite fieldsLoop_equation_2.
    change (DecodeRuneInString (spaceByte :: joinBytes (t' :: ts) [spaceByte]))
      with (32%N, 1).
    cbn [IsSpace pending]. cbn. f_equal. exact IH.
Qed.

Lemma bytes_app a b :
  list_ascii_of_string (a +:+ b)
  = list_ascii_of_string a ++ list_ascii_of_string b.
Proof.
  induction a as [|c a IH]; [reflexivity|].
  rewrite StringFacts.append_cons. cbn [list_ascii_of_string app].
  rewrite IH. reflexivity.
Qed.

Lemma bytes_Join ts :
  list_ascii_of_string (Join ts " ")
  = joinBytes (map list_ascii_of_string ts) [spaceByte].
Proof.
  induction ts as [|t [|t' ts] IH]; try reflexivity.
  change (Join (t :: t' :: ts) " ") with (t +:+ " " +:+ Join (t' :: ts) " ").
  rewrite !bytes_app, IH. reflexivity.
Qed.

(** C9. Splitting on white space yields no token on the empty string, and
    is idempotent: for every string [s], the tokens of [s], joined by single
    spaces and split again, are the tokens of [s]. *)
Theorem Fields_idempotent (s : string) :
  Fields EmptyString = []
  /\ Fields (Join (Fields s) " ") = Fields s.
Proof.
  split; [reflexivity|].
  unfold Fields, FieldsFunc.
  set (ts := fieldsLoop IsSpace None (list_ascii_of_string s)).
  rewrite bytes_Join, map_map.
  rewrite (map_ext _ id), map_id.
  - f_equal. apply fieldsLoop_join. apply fieldsLoop_fields. discriminate.
  - intros l. apply list_ascii_of_string_of_list_ascii.
Qed.

End FieldsFacts.

(** ** The command handler *)

Module ServerFacts.

Import Mcp Server StringFacts.

Section Handler.

Variable Ctx : Type.
Variable run : Ctx -> string -> list string -> Duration.t -> RunResult.

#[local] Abbreviation handle := (handleCommandExecution Ctx run).

Lemma not_a_mapping ctx request commandName timeout :
  (forall m, Arguments request <> VMap m) ->
  rejects (handle ctx request commandName timeout) "invalid arguments format".
Proof.
  intros H. unfold handleCommandExecution.
  destruct (Arguments request) as [| | | | |m];
    try (repeat split; reflexivity).
  destruct (H m eq_refl).
Qed.

Lemma no_argument_string ctx request commandName timeout m :
  Arguments request = VMap m ->
  (forall s, m !! "arguments" <> Some (VString s)) ->
  rejects (handle ctx request commandName timeout)
    ("missing or invalid " +:+ commandName +:+ " argument").
Proof.
  intros Hm H. unfold handleCommandExecution. rewrite Hm.
  destruct (m !! "arguments") as [[| | |s| |]|] eqn:E;
    try (repeat split; reflexivity).
  destruct (H s eq_refl).
Qed.

(** C3. For each of the registered tools, a call whose payload is not a
    mapping, or is a mapping without a string under [arguments], fails with
    an invalid-arguments error (the message [invalid arguments format] in
    the first case, [missing or invalid <tool> argument] in the second),
    returns the empty result, and starts no child process. *)
Theorem invalid_arguments_rejected name handler ctx request :
  In (name, handler) (registeredTools Ctx run) ->
  (forall m s, Arguments request = VMap m ->
               m !! "arguments" <> Some (VString s)) ->
  rejects (handler ctx request)
    (match Arguments request with
     | VMap _ => "missing or invalid " +:+ name +:+ " argument"
     | _ => "invalid arguments format"
     end).
Proof.
  intros Hin H.
  assert (Hh : handler = fun ctx req =>
                 handle ctx req name (30 * Duration.Second)%Z).
  { destruct Hin as [[= <- <-] | [[= <- <-] | []]]; reflexivity. }
  subst handler.
  destruct (Arguments request) as [| | | | |m] eqn:E.
  6: { apply no_argument_string with m; [exact E|].
       intros s. apply H. reflexivity. }
  all: apply not_a_mapping; rewrite E; discriminate.
Qed.

(** C4. When the command exits with status 0, the handler returns no error
    and a result made of one text block: its text is the captured standard
    output when that is not empty, and the fixed text
    [Command executed successfully with no output] when it is. *)
Theorem success_returns_stdout ctx request commandName timeout m cmdArgs :
  Arguments request = VMap m ->
  m !! "arguments" = Some (VString cmdArgs) ->
  runErr (run ctx commandName (Strings.Fields cmdArgs) timeout) = NoError ->
  let cmd := run ctx commandName (Strings.Fields cmdArgs) timeout in
  let o := handle ctx request commandName timeout in
  err o = None
  /\ (stdout cmd <> EmptyString ->
      result o
      = {| Content_ := [TextContent "text" (stdout cmd)];
           IsError := false |})
  /\ (stdout cmd = EmptyString ->
      result o
      = {| Content_ :=
             [TextContent "text"
                "Command executed successfully with no output"];
           IsError := false |})
  /\ spawns (trace o) = 1.
Proof.
  intros Hm Ha Hrun cmd o. subst cmd o. unfold handleCommandExecution.
  rewrite Hm, Ha. cbv zeta. rewrite Hrun.
  cbn [err result trace]. repeat split.
  - intros Hne.
    destruct (String.eqb_spec
                (stdout (run ctx commandName (Strings.Fields cmdArgs) timeout))
                EmptyString); [done|reflexivity].
  - intros ->. reflexivity.
Qed.

(** C8. When the command ends with a non-zero exit code, the handler
    returns the empty result and the error
    [<command> exited with code <code>: <stderr>], which embeds the exit
    code and the captured standard error; the command has been started
    once and is not run again. *)
Theorem exit_code_reported ctx request commandName timeout m cmdArgs code :
  Arguments request = VMap m ->
  m !! "arguments" = Some (VString cmdArgs) ->
  runErr (run ctx commandName (Strings.Fields cmdArgs) timeout)
  = ExitError code ->
  let cmd := run ctx commandName (Strings.Fields cmdArgs) timeout in
  let o := handle ctx request commandName timeout in
  let msg := commandName +:+ " exited with code " +:+ Fmt.d code +:+ ": "
             +:+ stderr cmd in
  result o = emptyResult
  /\ err o = Some msg
  /\ Fmt.embeds (Fmt.d code) msg
  /\ Fmt.embeds (stderr cmd) msg
  /\ spawns (trace o) = 1.
Proof.
  intros Hm Ha Hrun cmd o msg. subst cmd o msg.
  unfold handleCommandExecution.
  rewrite Hm, Ha. cbv zeta. rewrite Hrun.
  cbn [err result trace].
  split; [reflexivity | split; [reflexivity | split; [| split]]].
  - rewrite <- append_assoc. apply embeds_middle.
  - rewrite <- !append_assoc. apply embeds_end.
  - reflexivity.
Qed.

(** The deadline is consulted only for an error that is not an exit error:
    a run that ends in an exit error is reported by its exit code, whatever
    the context says. *)
Lemma exit_error_checked_first ctx request commandName timeout m cmdArgs code :
  Arguments request = VMap m ->
  m !! "arguments" = Some (VString cmdArgs) ->
  runErr (run ctx commandName (Strings.Fields cmdArgs) timeout)
  = ExitError code ->
  ctxErr (run ctx commandName (Strings.Fields cmdArgs) timeout)
  = DeadlineExceeded ->
  err (handle ctx request commandName timeout)
  = Some (commandName +:+ " exited with code " +:+ Fmt.d code +:+ ": "
          +:+ stderr (run ctx commandName (Strings.Fields cmdArgs) timeout)).
Proof.
  intros Hm Ha Hrun _. unfold handleCommandExecution.
  rewrite Hm, Ha, Hrun. reflexivity.
Qed.

(** The timeout message is what the handler returns when the deadline has
    passed and [cmd.Run] failed with an error that is not an exit error. *)
Lemma timeout_reported ctx request commandName timeout m cmdArgs e :
  Arguments request = VMap m ->
  m !! "arguments" = Some (VString cmdArgs) ->
  runErr (run ctx commandName (Strings.Fields cmdArgs) timeout)
  = OtherError e ->
  ctxErr (run ctx commandName (Strings.Fields cmdArgs) timeout)
  = DeadlineExceeded ->
  err (handle ctx request commandName timeout)
  = Some (commandName +:+ " command timed out after "
          +:+ Duration.String timeout).
Proof.
  intros Hm Ha Hrun Hctx. unfold handleCommandExecution.
  rewrite Hm, Ha, Hrun, Hctx. reflexivity.
Qed.

End Handler.

Import Samples.

(** C1. The handler run on a command that outlives its deadline of thirty
    seconds: the child is killed and the deadline has passed, yet the error
    returned is the one of a non-zero exit, with code -1, not the timeout
    error. *)
Example deadline_reported_as_exit :
  ctxErr (outlivesDeadline tt "kubectl" ["logs"; "-f"; "web"]
            (30 * Duration.Second)%Z)
  = DeadlineExceeded
  /\ trace deadlineRun
     = [Printed ("executing command: kubectl logs -f web" +:+ nl);
        Spawned "kubectl" ["logs"; "-f"; "web"] (30 * Duration.Second)%Z;
        Printed ("kubectl exited with code -1: " +:+ nl)]
  /\ err deadlineRun = Some "kubectl exited with code -1: "
  /\ err deadlineRun <> Some "kubectl command timed out after 30s".
Proof.
  vm_compute.
  split; [reflexivity | split; [reflexivity | split; [reflexivity|]]].
  discriminate.
Qed.

Lemma invalid_arguments_rejected_witness :
  rejects (handleCommandExecution unit (completes "ok") tt
             (callWithout "kubectl") "kubectl" (30 * Duration.Second)%Z)
    "missing or invalid kubectl argument"
  /\ rejects (handleCommandExecution unit (completes "ok") tt
                {| Name := "k8sgpt"; Arguments := VString "analyze" |}
                "k8sgpt" (30 * Duration.Second)%Z)
       "invalid arguments format".
Proof.
  split.
  - apply (invalid_arguments_rejected unit (completes "ok") "kubectl"
             (fun ctx req => handleCommandExecution unit (completes "ok") ctx
                               req "kubectl" (30 * Duration.Second)%Z)
             tt (callWithout "kubectl")).
    + right. left. reflexivity.
    + intros m s [= <-]. vm_compute. discriminate.
  - apply (invalid_arguments_rejected unit (completes "ok") "k8sgpt"
             (fun ctx req => handleCommandExecution unit (completes "ok") ctx
                               req "k8sgpt" (30 * Duration.Second)%Z)
             tt {| Name := "k8sgpt"; Arguments := VString "analyze" |}).
    + left. reflexivity.
    + intros m s. discriminate.
Defined.

Lemma success_returns_stdout_witness :
  result (handleCommandExecution unit (completes "foo") tt
            (callWith "kubectl" "get pods") "kubectl"
            (30 * Duration.Second)%Z)
  = {| Content_ := [TextContent "text" "foo"]; IsError := false |}
  /\ result (handleCommandExecution unit (completes EmptyString) tt
               (callWith "kubectl" "get pods") "kubectl"
               (30 * Duration.Second)%Z)
     = {| Content_ :=
            [TextContent "text"
               "Command executed successfully with no output"];
          IsError := false |}.
Proof.
  split.
  - apply (success_returns_stdout unit (completes "foo") tt
             (callWith "kubectl" "get pods") "kubectl"
             (30 * Duration.Second)%Z
             {[ "arguments" := VString "get pods" ]} "get pods");
      [reflexivity | reflexivity | reflexivity | discriminate].
  - apply (success_returns_stdout unit (completes EmptyString) tt
             (callWith "kubectl" "get pods") "kubectl"
             (30 * Duration.Second)%Z
             {[ "arguments" := VString "get pods" ]} "get pods");
      reflexivity.
Defined.

Lemma exit_code_reported_witness :
  err (handleCommandExecution unit (exits 2 "bad flag") tt
         (callWith "kubectl" "get pods --bad") "kubectl"
         (30 * Duration.Second)%Z)
  = Some "kubectl exited with code 2: bad flag"
  /\ Fmt.embeds "2" "kubectl exited with code 2: bad flag"
  /\ Fmt.embeds "bad flag" "kubectl exited with code 2: bad flag".
Proof.
  pose proof (exit_code_reported unit (exits 2 "bad flag") tt
                (callWith "kubectl" "get pods --bad") "kubectl"
                (30 * Duration.Second)%Z
                {[ "arguments" := VString "get pods --bad" ]}
                "get pods --bad" 2 eq_refl eq_refl eq_refl)
    as (_ & He & Hc & Hs & _).
  split; [exact He | split; [exact Hc | exact Hs]].
Defined.

End ServerFacts.

(** ** The agent loop *)

Module ClientFacts.

Import Mcp OpenAI Client.

Lemma requests_app tr1 tr2 :
  requests (tr1 ++ tr2) = requests tr1 + requests tr2.
Proof. unfold requests. rewrite List.filter_app, length_app. reflexivity. Qed.

Lemma calls_app tr1 tr2 : calls (tr1 ++ tr2) = calls tr1 + calls tr2.
Proof. unfold calls. rewrite List.filter_app, length_app. reflexivity. Qed.

Section Facts.

Variable World Ctx : Type.
Variable chat :
  World -> Ctx -> ChatCompletionNewParams -> World * (ChatCompletion + string).
Variable callTool :
  World -> Ctx -> Duration.t -> CallToolRequest ->
  World * (option CallToolResult * option string).
Variable unmarshal : string -> gmap string GoValue + string.
Variable formatContent : list Mcp.Content -> string.

#[local] Abbreviation step :=
  (toolCallStep World Ctx callTool unmarshal formatContent).
#[local] Abbreviation round_ :=
  (round World Ctx chat callTool unmarshal formatContent).
#[local] Abbreviation loop_ :=
  (loop World Ctx chat callTool unmarshal formatContent).
#[local] Abbreviation runPrompt_ :=
  (runPrompt World Ctx chat callTool unmarshal formatContent).

(** The loop, one iteration at a time. *)
Lemma loop_unfold ctx maxIterations iteration (st : State World) :
  loop_ ctx maxIterations iteration st =
  if lt_dec iteration maxIterations then
    match round_ ctx iteration st with
    | Leave x st' => (x, st')
    | Next st' => loop_ ctx maxIterations (S iteration) st'
    end
  else (Returned None, emit st (Printed (exhaustedLine maxIterations))).
Proof.
  rewrite loop_equation_1.
  destruct (lt_dec iteration maxIterations); cbn; [|reflexivity].
  destruct (round_ ctx iteration st); reflexivity.
Qed.

Ltac step_cases :=
  unfold toolCallStep;
  repeat match goal with
    | |- context [match unmarshal ?a with _ => _ end] => destruct (unmarshal a)
    | |- context [let '(_, _) := callTool ?w ?c ?t ?r in _] =>
        destruct (callTool w c t r) as [? [[?|] [?|]]]
    | |- context [if ?b then _ else _] => destruct b
    end.

(** A tool call makes no request to the oracle and at most one call. *)
Lemma step_requests ctx iteration (st : State World) tc :
  requests (trace (step ctx iteration st tc)) = requests (trace st).
Proof.
  step_cases; cbn [trace emit append]; rewrite ?requests_app; cbn; lia.
Qed.

Lemma step_calls ctx iteration (st : State World) tc :
  calls (trace (step ctx iteration st tc)) <= calls (trace st) + 1.
Proof.
  step_cases; cbn [trace emit append]; rewrite ?calls_app; cbn; lia.
Qed.

Lemma steps_requests ctx iteration tcs : forall st : State World,
  requests (trace (fold_left (step ctx iteration) tcs st))
  = requests (trace st).
Proof.
  induction tcs as [|tc tcs IH]; intros st; [reflexivity|].
  cbn [fold_left]. rewrite IH. apply step_requests.
Qed.

Lemma steps_calls ctx iteration tcs : forall st : State World,
  calls (trace (fold_left (step ctx iteration) tcs st))
  <= calls (trace st) + length tcs.
Proof.
  induction tcs as [|tc tcs IH]; intros st; [cbn; lia|].
  cbn [fold_left length]. rewrite IH.
  pose proof (step_calls ctx iteration st tc). lia.
Qed.

(** The three ways a round goes when the oracle answers. *)
Lemma round_answer ctx iteration (st : State World) w ch rest :
  chat (world st) ctx (params st) = (w, inl {| Choices := ch :: rest |}) ->
  Content (Message ch) <> EmptyString ->
  round_ ctx iteration st =
  Leave (Returned None)
    {| world := w; params := params st;
       trace := trace st ++ [Requested (params st);
                             Printed (answerLine (Content (Message ch))
                                                 iteration)] |}.
Proof.
  intros Hchat Hc. unfold round. rewrite Hchat. cbn [Choices].
  destruct (String.eqb_spec (Content (Message ch)) EmptyString); [done|].
  cbn [negb]. unfold emit. cbn [world params trace].
  rewrite <- app_assoc. reflexivity.
Qed.

Lemma round_done ctx iteration (st : State World) w ch rest :
  chat (world st) ctx (params st) = (w, inl {| Choices := ch :: rest |}) ->
  Content (Message ch) = EmptyString ->
  ToolCalls (Message ch) = [] ->
  round_ ctx iteration st =
  Leave (Returned None)
    {| world := w; params := params st;
       trace := trace st ++ [Requested (params st);
                             Printed (doneLine iteration)] |}.
Proof.
  intros Hchat Hc Htc. unfold round. rewrite Hchat. cbn [Choices].
  rewrite Hc, Htc. cbn [String.eqb negb length Nat.eqb].
  unfold emit. cbn [world params trace].
  rewrite <- app_assoc. reflexivity.
Qed.

Lemma round_dispatch ctx iteration (st : State World) w ch rest :
  chat (world st) ctx (params st) = (w, inl {| Choices := ch :: rest |}) ->
  Content (Message ch) = EmptyString ->
  ToolCalls (Message ch) <> [] ->
  round_ ctx iteration st =
  Next (fold_left (step ctx iteration) (ToolCalls (Message ch))
          {| world := w; params := params st;
             trace := trace st ++ [Requested (params st);
                                   Printed ("checking for tool calls" +:+ nl)]
          |}).
Proof.
  intros Hchat Hc Htc. unfold round. rewrite Hchat. cbn [Choices].
  rewrite Hc. cbn [String.eqb negb].
  destruct (ToolCalls (Message ch)) as [|tc tcs]; [done|].
  cbn [length Nat.eqb]. unfold emit. cbn [world params trace].
  rewrite <- app_assoc. reflexivity.
Qed.

(** A round returns an error only when the request to the oracle fails. *)
Lemma round_error ctx iteration (st st' : State World) e :
  round_ ctx iteration st = Leave (Returned (Some e)) st' ->
  exists w msg,
    chat (world st) ctx (params st) = (w, inr msg)
    /\ e = "failed to create chat completion: " +:+ msg.
Proof.
  unfold round.
  destruct (chat (world st) ctx (params st)) as [w [c|msg]].
  - destruct (Choices c) as [|ch rest]; [discriminate|].
    destruct (negb _); [discriminate|].
    destruct (length _ =? 0)%nat; discriminate.
  - intros [= <- _]. exists w, msg. split; reflexivity.
Qed.

Lemma loop_error ctx maxIterations e :
  forall n iteration (st : State World),
    maxIterations - iteration = n ->
    fst (loop_ ctx maxIterations iteration st) = Returned (Some e) ->
    exists w p w' msg,
      chat w ctx p = (w', inr msg)
      /\ e = "failed to create chat completion: " +:+ msg.
Proof.
  induction n as [|n IH]; intros iteration st Hn; rewrite loop_unfold;
    destruct (lt_dec iteration maxIterations); try lia; try discriminate.
  destruct (round_ ctx iteration st) as [[[e'|]|] st'|st'] eqn:Hr;
    cbn [fst]; try discriminate.
  - intros [= ->]. apply round_error in Hr. destruct Hr as (w & msg & H1 & H2).
    exists (world st), (params st), w, msg. split; assumption.
  - apply IH. lia.
Qed.

(** An oracle that only ever asks for tool calls is asked once per value of
    the counter below the maximum; then the run gives up, with no error. *)
Lemma loop_exhausts ctx maxIterations :
  alwaysDispatches World Ctx chat ctx ->
  forall n iteration (st : State World),
    maxIterations - iteration = n ->
    exists st',
      loop_ ctx maxIterations iteration st = (Returned None, st')
      /\ requests (trace st') = requests (trace st) + n
      /\ last (trace st') = Some (Printed (exhaustedLine maxIterations))
      /\ (oneIntentPerRound World Ctx chat ctx ->
          calls (trace st') <= calls (trace st) + n).
Proof.
  intros Horacle. induction n as [|n IH]; intros iteration st Hn.
  - rewrite loop_unfold. destruct (lt_dec iteration maxIterations); [lia|].
    eexists; split; [reflexivity|]. cbn [trace emit].
    rewrite requests_app, calls_app, last_snoc. cbn.
    split; [lia | split; [reflexivity | lia]].
  - rewrite loop_unfold. destruct (lt_dec iteration maxIterations); [|lia].
    destruct (Horacle (world st) (params st))
      as (w & ch & rest & Hchat & Hc & Htc).
    rewrite (round_dispatch _ _ _ _ _ _ Hchat Hc Htc).
    match goal with
    | |- context [loop_ _ _ _ ?s] =>
        destruct (IH (S iteration) s ltac:(lia))
          as (st' & Hl & Hr & Hlast & Hcalls)
    end.
    exists st'. split; [exact Hl|].
    rewrite steps_requests in Hr. cbn [trace] in Hr.
    rewrite !requests_app in Hr. cbn in Hr.
    split; [lia | split; [exact Hlast |]].
    intros Hone. specialize (Hcalls Hone).
    pose proof (Hone _ _ _ _ _ _ Hchat eq_refl) as H1.
    match type of Hcalls with
    | context [fold_left ?f ?l ?s] =>
        pose proof (steps_calls ctx iteration l s) as Hs
    end.
    cbn [trace] in Hs. rewrite !calls_app in Hs. cbn in Hs. lia.
Qed.

(** What a failed tool call leaves behind. *)
Lemma step_failure ctx iteration (st : State World) tc args w res e :
  unmarshal (FunctionArguments tc) = inl args ->
  callTool (world st) ctx (30 * Duration.Second)%Z
    {| Mcp.Name := FunctionName tc; Arguments := VMap args |}
  = (w, (res, Some e)) ->
  step ctx iteration st tc =
  {| world := w;
     params := appendMessage (params st) (systemNote (failureNote e));
     trace :=
       trace st
       ++ [Printed ("Iteration " +:+ Fmt.d (Z.of_nat iteration)
                    +:+ " - Tool call: " +:+ FunctionName tc +:+ nl);
           Printed ("Tool call arguments: " +:+ FunctionArguments tc +:+ nl);
           Called (30 * Duration.Second)%Z
             {| Mcp.Name := FunctionName tc; Arguments := VMap args |};
           Printed ("tool execution failed or timeout: " +:+ e +:+ nl);
           Printed ("sleeping for 2 seconds, before retrying" +:+ nl);
           Slept (2 * Duration.Second)%Z] |}.
Proof.
  intros Hu Hcall. unfold toolCallStep. rewrite Hu.
  cbn [emit world params trace]. rewrite Hcall.
  unfold append, emit. cbn [world params trace].
  rewrite <- !app_assoc. reflexivity.
Qed.

(** C2, as the loop has it. For every oracle that at every request returns
    no text and at least one tool call, [runPrompt] ends with no error after
    exactly four rounds, one less than its maximum of five (a loop started
    at 1 under any maximum makes one round less than that maximum), the
    last thing it does being to report that the maximum was reached; and
    when every response carries one tool call, the tool is invoked at most
    four times. *)
Theorem exhaustion_after_four_rounds ctx w question tools :
  alwaysDispatches World Ctx chat ctx ->
  (forall maxIterations (st : State World), exists st',
      loop_ ctx maxIterations 1 st = (Returned None, st')
      /\ requests (trace st') = requests (trace st) + (maxIterations - 1)
      /\ last (trace st')
         = Some (Printed (nl +:+ "Reached maximum iterations ("
                         +:+ Fmt.d (Z.of_nat maxIterations)
                         +:+ ") without completing the task" +:+ nl)))
  /\ exists st,
      runPrompt_ w question tools ctx = (Returned None, st)
      /\ requests (trace st) = 4
      /\ last (trace st)
         = Some (Printed (nl +:+ "Reached maximum iterations ("
                         +:+ Fmt.d (Z.of_nat 5)
                         +:+ ") without completing the task" +:+ nl))
      /\ (oneIntentPerRound World Ctx chat ctx -> calls (trace st) <= 4).
Proof.
  intros Horacle. split.
  - intros maxIterations st.
    destruct (loop_exhausts ctx maxIterations Horacle (maxIterations - 1) 1 st
                eq_refl) as (st' & Hl & Hr & Hlast & _).
    exists st'. auto.
  - unfold runPrompt.
    destruct (loop_exhausts ctx 5 Horacle 4 1
                {| world := w; params := initialParams question tools;
                   trace := [] |} eq_refl)
      as (st' & Hl & Hr & Hlast & Hcalls).
    exists st'. auto.
Qed.

(** C5. In any round, a response with non-empty text ends the run in that
    round: the text is printed, in the line [Got LLM response: <text>] that
    also counts the iterations, [runPrompt] returns no error, and nothing
    else happens, whatever tool calls the response carries (none is
    invoked, no message is appended). In particular an answer to the first
    request ends the run after one round. *)
Theorem final_text_ends_run ctx :
  (forall maxIterations iteration (st : State World) w ch rest,
      iteration < maxIterations ->
      chat (world st) ctx (params st) = (w, inl {| Choices := ch :: rest |}) ->
      Content (Message ch) <> EmptyString ->
      loop_ ctx maxIterations iteration st =
      (Returned None,
       {| world := w; params := params st;
          trace :=
            trace st
            ++ [Requested (params st);
                Printed (nl +:+ "Got LLM response: " +:+ Content (Message ch) +:+ nl
                   +:+ "Task completed after "
                   +:+ Fmt.d (Z.of_nat iteration - 1) +:+ " iterations" +:+ nl)] |}))
  /\ (forall w0 question tools w ch rest,
         chat w0 ctx (initialParams question tools)
         = (w, inl {| Choices := ch :: rest |}) ->
         Content (Message ch) <> EmptyString ->
         runPrompt_ w0 question tools ctx =
         (Returned None,
          {| world := w; params := initialParams question tools;
             trace :=
               [Requested (initialParams question tools);
                Printed (nl +:+ "Got LLM response: " +:+ Content (Message ch) +:+ nl
                   +:+ "Task completed after "
                   +:+ Fmt.d (Z.of_nat 1 - 1) +:+ " iterations" +:+ nl)] |}))
  /\ (forall content iteration,
         Fmt.embeds content
           (nl +:+ "Got LLM response: " +:+ content +:+ nl
            +:+ "Task completed after " +:+ Fmt.d (Z.of_nat iteration - 1)
            +:+ " iterations" +:+ nl)).
Proof.
  assert (H : forall maxIterations iteration (st : State World) w ch rest,
             iteration < maxIterations ->
             chat (world st) ctx (params st)
             = (w, inl {| Choices := ch :: rest |}) ->
             Content (Message ch) <> EmptyString ->
             loop_ ctx maxIterations iteration st =
             (Returned None,
              {| world := w; params := params st;
                 trace := trace st
                          ++ [Requested (params st);
                              Printed (answerLine (Content (Message ch))
                                                  iteration)] |})).
  { intros maxIterations iteration st w ch rest Hlt Hchat Hc.
    rewrite loop_unfold. destruct (lt_dec iteration maxIterations); [|lia].
    rewrite (round_answer _ _ _ _ _ _ Hchat Hc). reflexivity. }
  split; [exact H | split].
  - intros w0 question tools w ch rest Hchat Hc. unfold runPrompt.
    rewrite (H 5 1 _ w ch rest); [reflexivity | lia | exact Hchat | exact Hc].
  - intros content iteration.
    rewrite <- (StringFacts.append_assoc nl "Got LLM response: ").
    apply StringFacts.embeds_middle.
Qed.

(** C6, as the loop has it. In any round, a response with empty text and no
    tool call ends the run in that round: [runPrompt] returns no error,
    having printed only the line that reports the end of the task; no tool
    is invoked and no message is appended. *)
Theorem empty_response_ends_run ctx maxIterations iteration
  (st : State World) w ch rest :
  iteration < maxIterations ->
  chat (world st) ctx (params st) = (w, inl {| Choices := ch :: rest |}) ->
  Content (Message ch) = EmptyString ->
  ToolCalls (Message ch) = [] ->
  loop_ ctx maxIterations iteration st =
  (Returned None,
   {| world := w; params := params st;
      trace :=
        trace st
        ++ [Requested (params st);
            Printed (nl +:+ "No more tool calls, task completed after "
                     +:+ Fmt.d (Z.of_nat iteration - 1) +:+ " iterations"
                     +:+ nl)] |}).
Proof.
  intros Hlt Hchat Hc Htc.
  rewrite loop_unfold. destruct (lt_dec iteration maxIterations); [|lia].
  rewrite (round_done _ _ _ _ _ _ Hchat Hc Htc). reflexivity.
Qed.

(** C7. A tool call that fails appends exactly one message, of role
    [system], whose text quotes the error and asks to try a different
    approach, after a pause of two seconds, and the loop goes on: the remaining tool calls of
    the response are handled, the round is followed by the next one, and the
    only error [runPrompt] ever returns is that of a failed request to the
    oracle. *)
Theorem tool_failure_is_reported ctx :
  (forall iteration (st : State World) tc rest args w res e,
      unmarshal (FunctionArguments tc) = inl args ->
      callTool (world st) ctx (30 * Duration.Second)%Z
        {| Mcp.Name := FunctionName tc; Arguments := VMap args |}
      = (w, (res, Some e)) ->
      let st' := step ctx iteration st tc in
      Messages (params st')
      = Messages (params st)
        ++ [ToParam {| Role := "system";
                       Content :=
                         "Tool execution failed with error: " +:+ e +:+ nl
                         +:+ "Please try a different approach.";
                       ToolCalls := [] |}]
      /\ Fmt.embeds e
           ("Tool execution failed with error: " +:+ e +:+ nl
            +:+ "Please try a different approach.")
      /\ Fmt.embeds "Please try a different approach."
           ("Tool execution failed with error: " +:+ e +:+ nl
            +:+ "Please try a different approach.")
      /\ trace st'
         = trace st
           ++ [Printed ("Iteration " +:+ Fmt.d (Z.of_nat iteration)
                        +:+ " - Tool call: " +:+ FunctionName tc +:+ nl);
               Printed ("Tool call arguments: " +:+ FunctionArguments tc
                        +:+ nl);
               Called (30 * Duration.Second)%Z
                 {| Mcp.Name := FunctionName tc; Arguments := VMap args |};
               Printed ("tool execution failed or timeout: " +:+ e +:+ nl);
               Printed ("sleeping for 2 seconds, before retrying" +:+ nl);
               Slept (2 * Duration.Second)%Z]
      /\ fold_left (step ctx iteration) (tc :: rest) st
         = fold_left (step ctx iteration) rest st')
  /\ (forall maxIterations iteration (st : State World) w ch rest,
         iteration < maxIterations ->
         chat (world st) ctx (params st)
         = (w, inl {| Choices := ch :: rest |}) ->
         Content (Message ch) = EmptyString ->
         ToolCalls (Message ch) <> [] ->
         loop_ ctx maxIterations iteration st =
         loop_ ctx maxIterations (S iteration)
           (fold_left (step ctx iteration) (ToolCalls (Message ch))
              {| world := w; params := params st;
                 trace := trace st
                          ++ [Requested (params st);
                              Printed ("checking for tool calls" +:+ nl)] |}))
  /\ (forall w question tools e,
         fst (runPrompt_ w question tools ctx) = Returned (Some e) ->
         exists w1 p w2 msg,
           chat w1 ctx p = (w2, inr msg)
           /\ e = "failed to create chat completion: " +:+ msg).
Proof.
  split; [|split].
  - intros iteration st tc rest args w res e Hu Hcall st'. subst st'.
    rewrite (step_failure _ _ _ _ _ _ _ _ Hu Hcall).
    cbn [params trace appendMessage Messages fold_left].
    rewrite (step_failure _ _ _ _ _ _ _ _ Hu Hcall).
    split; [reflexivity | split; [| split; [| split; reflexivity]]].
    + apply StringFacts.embeds_middle.
    + rewrite <- !StringFacts.append_assoc. apply StringFacts.embeds_end.
  - intros maxIterations iteration st w ch rest Hlt Hchat Hc Htc.
    rewrite loop_unfold. destruct (lt_dec iteration maxIterations); [|lia].
    rewrite (round_dispatch _ _ _ _ _ _ Hchat Hc Htc). reflexivity.
  - intros w question tools e. unfold runPrompt.
    apply (loop_error ctx 5 e 4). reflexivity.
Qed.

(** C10. A tool call that succeeds with a result of empty content (or with
    no result at all) appends no message: the request under construction is
    what it was before the call, and the only effects are the two lines
    announcing the call and the call itself. *)
Theorem empty_result_appends_nothing ctx iteration (st : State World) tc
  args w res :
  unmarshal (FunctionArguments tc) = inl args ->
  callTool (world st) ctx (30 * Duration.Second)%Z
    {| Mcp.Name := FunctionName tc; Arguments := VMap args |}
  = (w, (res, None)) ->
  (forall r, res = Some r -> Content_ r = []) ->
  let st' := step ctx iteration st tc in
  params st' = params st
  /\ Messages (params st') = Messages (params st)
  /\ world st' = w
  /\ trace st'
     = trace st
       ++ [Printed ("Iteration " +:+ Fmt.d (Z.of_nat iteration)
                    +:+ " - Tool call: " +:+ FunctionName tc +:+ nl);
           Printed ("Tool call arguments: " +:+ FunctionArguments tc +:+ nl);
           Called (30 * Duration.Second)%Z
             {| Mcp.Name := FunctionName tc; Arguments := VMap args |}].
Proof.
  intros Hu Hcall Hres st'. subst st'. unfold toolCallStep. rewrite Hu.
  cbn [emit world params trace]. rewrite Hcall.
  destruct res as [r|].
  - rewrite (Hres r eq_refl). cbn [length Nat.ltb Nat.leb world params trace].
    rewrite <- !app_assoc. repeat split; reflexivity.
  - cbn [world params trace].
    rewrite <- !app_assoc. repeat split; reflexivity.
Qed.

End Facts.

Import Samples.

Lemma dispatching_always : alwaysDispatches nat unit dispatching tt.
Proof.
  intros w p. exists (S w), dispatchChoice, [].
  split; [reflexivity | split; [reflexivity | discriminate]].
Defined.

Lemma dispatching_one : oneIntentPerRound nat unit dispatching tt.
Proof. intros w p w' c ch rest [= _ <-] [= <- _]. reflexivity. Defined.

Lemma exhaustion_after_four_rounds_witness :
  exists st,
    runPrompt nat unit dispatching listing decode show 0 question [kubectl] tt
    = (Returned None, st)
    /\ requests (trace st) = 4
    /\ last (trace st)
       = Some (Printed (nl +:+ "Reached maximum iterations (5) without completing the task"
                        +:+ nl))
    /\ (oneIntentPerRound nat unit dispatching tt -> calls (trace st) <= 4).
Proof.
  exact (proj2 (exhaustion_after_four_rounds nat unit dispatching listing
                  decode show tt 0 question [kubectl] dispatching_always)).
Defined.

(** C2, at an oracle that asks for one tool call at every request: the run
    makes four rounds, not the five of its maximum. *)
Example five_rounds_not_made :
  alwaysDispatches nat unit dispatching tt
  /\ oneIntentPerRound nat unit dispatching tt
  /\ fst dispatchingRun = Returned None
  /\ requests (trace (snd dispatchingRun)) = 4
  /\ requests (trace (snd dispatchingRun)) <> 5.
Proof.
  split; [exact dispatching_always | split; [exact dispatching_one |]].
  vm_compute. split; [reflexivity | split; [reflexivity | discriminate]].
Qed.

Lemma final_text_ends_run_witness :
  runPrompt nat unit answering listing decode show 0 question [kubectl] tt
  = (Returned None,
     {| world := 1; params := initialParams question [kubectl];
        trace :=
          [Requested (initialParams question [kubectl]);
           Printed (nl +:+ "Got LLM response: 3 pods are running" +:+ nl
                    +:+ "Task completed after 0 iterations" +:+ nl)] |})
  /\ Fmt.embeds "3 pods are running"
       (nl +:+ "Got LLM response: " +:+ "3 pods are running" +:+ nl
        +:+ "Task completed after " +:+ Fmt.d (Z.of_nat 1 - 1)
        +:+ " iterations" +:+ nl).
Proof.
  split.
  - apply (proj1 (proj2 (final_text_ends_run nat unit answering listing
                           decode show tt))
             0 question [kubectl] 1 answerChoice []);
      [reflexivity | discriminate].
  - apply (proj2 (proj2 (final_text_ends_run nat unit answering listing
                           decode show tt))).
Defined.

Lemma empty_response_ends_run_witness :
  loop nat unit silent listing decode show tt 5 1 firstState
  = (Returned None,
     {| world := 1; params := params firstState;
        trace :=
          trace firstState
          ++ [Requested (params firstState);
              Printed (nl +:+ "No more tool calls, task completed after 0 iterations"
                       +:+ nl)] |}).
Proof.
  apply (empty_response_ends_run nat unit silent listing decode show tt 5 1
           firstState 1 silentChoice []);
    [lia | reflexivity | reflexivity | reflexivity].
Defined.

(** C6, at an oracle that answers the first request with no text and no
    tool call: the run returns no error and invokes no tool, but it does
    write to the console, the line that reports the end of the task. *)
Example silent_round_prints :
  fst silentRun = Returned None
  /\ calls (trace (snd silentRun)) = 0
  /\ printed (trace (snd silentRun))
     = [Printed (nl +:+ "No more tool calls, task completed after 0 iterations"
                 +:+ nl)]
  /\ printed (trace (snd silentRun)) <> [].
Proof.
  vm_compute.
  split; [reflexivity | split; [reflexivity | split; [reflexivity|]]].
  discriminate.
Qed.

Lemma tool_failure_is_reported_witness :
  Messages (params (toolCallStep nat unit failing decode show tt 1 firstState
                      podsCall))
  = Messages (params firstState)
    ++ [ToParam {| Role := "system";
                   Content :=
                     "Tool execution failed with error: transport closed"
                     +:+ nl +:+ "Please try a different approach.";
                   ToolCalls := [] |}].
Proof.
  exact (proj1 (proj1 (tool_failure_is_reported nat unit dispatching failing
                         decode show tt)
                  1 firstState podsCall []
                  {[ "arguments" := VString "get pods" ]} 0 None
                  "transport closed" eq_refl eq_refl)).
Defined.

Lemma empty_result_appends_nothing_witness :
  params (toolCallStep nat unit blank decode show tt 1 firstState podsCall)
  = params firstState.
Proof.
  refine (proj1 (empty_result_appends_nothing nat unit blank decode show tt 1
                   firstState podsCall
                   {[ "arguments" := VString "get pods" ]} 0
                   (Some emptyResult) eq_refl eq_refl _)).
  intros r [= <-]. reflexivity.
Defined.

End ClientFacts.

(** ** More on tokenization *)

Module FieldsMore.

Import Utf8 Utf8Facts Strings StringsSpec FieldsFacts.

Lemma ascii_decode b s :
  isASCII b = true ->
  DecodeRuneInString (b :: s) = (N_of_ascii b, 1).
Proof.
  unfold isASCII. intros Hb. apply N.ltb_lt in Hb.
  unfold DecodeRuneInString, at_, first. cbn [length Nat.ltb Nat.leb nth].
  destruct (N.ltb_spec (N_of_ascii b) 0x80); [reflexivity | lia].
Qed.

Lemma ascii_IsSpace b :
  isASCII b = true -> IsSpace (N_of_ascii b) = asciiSpace b.
Proof.
  unfold isASCII, IsSpace, asciiSpace. intros Hb. apply N.ltb_lt in Hb.
  cbv zeta.
  destruct (N.leb_spec (N_of_ascii b) 0xFF); [|lia].
  destruct (N.eqb_spec (N_of_ascii b) 0x85); [lia|].
  destruct (N.eqb_spec (N_of_ascii b) 0xA0); [lia|].
  rewrite !orb_false_r. reflexivity.
Qed.

(** The bytes of a rune after its first are continuation bytes. *)
Lemma decode_tail s r w :
  DecodeRuneInString s = (r, w) ->
  Forall (fun c => isASCII c = false) (firstn (w - 1) (tl s)).
Proof.
  destruct s as [|b0 t]; [intros [= <- <-]; constructor|].
  unfold DecodeRuneInString, at_. cbn [app nth tl].
  change (length (b0 :: t) <? 1)%nat with false. cbv iota.
  destruct (first (N_of_ascii b0)) as [| |sz lo hi] eqn:E;
    try (intros [= <- <-]; constructor).
  apply first_lead in E. destruct E as (Hsz & Hlo & Hhi).
  unfold locb, hicb, isASCII.
  destruct Hsz as [-> | [-> | ->]];
    destruct t as [|b1 [|b2 [|b3 t]]];
    cbn [length Nat.ltb Nat.leb nth] in *;
    branches; intros [= <- <-]; cbn [Nat.sub firstn];
    repeat constructor; bounds; apply N.ltb_ge; lia.
Qed.

(** No byte of a field is ASCII white space. *)
Lemma plainIn_clean t :
  plainIn [] t -> Forall (fun c => asciiSpace c = false) t.
Proof.
  induction 1 as [|b s r w Hd Hr Hw _ IH]; [constructor|].
  rewrite app_nil_r in Hd.
  constructor.
  - destruct (isASCII b) eqn:Hb.
    + rewrite ascii_decode in Hd by exact Hb. injection Hd as <- <-.
      rewrite <- ascii_IsSpace by exact Hb. exact Hr.
    + unfold isASCII in Hb. apply N.ltb_ge in Hb. unfold asciiSpace.
      cbv zeta.
      destruct (N.leb_spec (N_of_ascii b) 13); [lia|].
      destruct (N.eqb_spec (N_of_ascii b) 32); [lia|].
      rewrite andb_false_r. reflexivity.
  - rewrite <- (take_drop (w - 1) s). apply Forall_app. split; [|exact IH].
    apply decode_tail in Hd. cbn [tl] in Hd.
    eapply Forall_impl; [exact Hd|].
    intros c Hc. unfold isASCII in Hc. apply N.ltb_ge in Hc.
    unfold asciiSpace. cbv zeta.
    destruct (N.leb_spec (N_of_ascii c) 13); [lia|].
    destruct (N.eqb_spec (N_of_ascii c) 32); [lia|].
    rewrite andb_false_r. reflexivity.
Qed.

(** A string of ASCII bytes none of which is white space is a field. *)
Lemma plain_bytes_field t :
  Forall (fun c => plainByte c = true) t -> plainIn [] t.
Proof.
  induction 1 as [|b s Hb _ IH]; [constructor|].
  unfold plainByte in Hb. apply andb_true_iff in Hb. destruct Hb as [Ha Hs].
  apply plain_rune with (N_of_ascii b) 1.
  - rewrite app_nil_r. apply ascii_decode. exact Ha.
  - rewrite ascii_IsSpace by exact Ha. apply negb_true_iff. exact Hs.
  - cbn. lia.
  - exact IH.
Qed.

(** The loop handles what stands before a space and what stands after it
    one after the other. *)
Lemma fieldsLoop_space a : forall start b,
  fieldsLoop IsSpace start (a ++ spaceByte :: b)
  = fieldsLoop IsSpace start a ++ fieldsLoop IsSpace None b.
Proof.
  induction a as [a IH] using (induction_ltof1 _ (@length ascii)).
  unfold ltof in IH. intros start b. destruct a as [|c a].
  - cbn [app]. rewrite fieldsLoop_equation_2.
    change (DecodeRuneInString (spaceByte :: b)) with (32%N, 1).
    simp fieldsLoop. destruct start; reflexivity.
  - cbn [app]. rewrite !fieldsLoop_equation_2.
    change (c :: a ++ spaceByte :: b) with ((c :: a) ++ spaceByte :: b).
    rewrite decode_local by (discriminate || reflexivity).
    destruct (DecodeRuneInString (c :: a)) as [r w] eqn:Hd.
    pose proof (decode_width (c :: a) ltac:(discriminate)) as Hw.
    rewrite Hd in Hw. cbn in Hw.
    rewrite drop_app_le, take_app_le by lia.
    assert (Hlen : length (skipn (w - 1) a) < length (c :: a))
      by (rewrite length_skipn; cbn; lia).
    destruct (IsSpace r); [destruct start|]; rewrite (IH _ Hlen); reflexivity.
Qed.

Lemma bytes_map_inverse (L : list (list ascii)) :
  map list_ascii_of_string (map string_of_list_ascii L) = L.
Proof.
  rewrite map_map, (map_ext _ id), map_id; [reflexivity|].
  intros l. apply list_ascii_of_string_of_list_ascii.
Qed.

Lemma strings_map_inverse (ts : list string) :
  map string_of_list_ascii (map list_ascii_of_string ts) = ts.
Proof.
  rewrite map_map, (map_ext _ id), map_id; [reflexivity|].
  intros l. apply string_of_list_ascii_of_string.
Qed.

(** Joining the tokens of a string and splitting again changes nothing. *)
Lemma Fields_rejoin s :
  Fields (Join (Fields s) " ") = Fields s.
Proof.
  unfold Fields, FieldsFunc.
  rewrite bytes_Join, bytes_map_inverse.
  f_equal. apply fieldsLoop_join. apply fieldsLoop_fields. discriminate.
Qed.

(** X1. A single space between two strings separates their tokens: the
    tokens of [a], a space, [b] are those of [a] followed by those of [b]. *)
Theorem Fields_space (a b : string) :
  Fields (a +:+ " " +:+ b) = Fields a ++ Fields b.
Proof.
  unfold Fields, FieldsFunc.
  rewrite bytes_app. change (list_ascii_of_string (" " +:+ b))
    with (spaceByte :: list_ascii_of_string b).
  rewrite fieldsLoop_space, map_app. reflexivity.
Qed.

(** X2. No token is empty, and no token holds a tab, a line feed, a
    vertical tab, a form feed, a carriage return or a space, whatever the
    string and whatever quotes it uses. *)
Theorem Fields_tokens_clean (s t : string) :
  In t (Fields s) ->
  t <> EmptyString
  /\ Forall (fun c => asciiSpace c = false) (list_ascii_of_string t).
Proof.
  unfold Fields, FieldsFunc. intros Hin. apply in_map_iff in Hin.
  destruct Hin as (l & <- & Hl).
  assert (Hf : Forall field (fieldsLoop IsSpace None (list_ascii_of_string s)))
    by (apply fieldsLoop_fields; discriminate).
  rewrite Forall_forall in Hf. apply list_elem_of_In in Hl.
  destruct (Hf l Hl) as [Hne Hp].
  rewrite list_ascii_of_string_of_list_ascii. split.
  - destruct l; [done|discriminate].
  - apply plainIn_clean. exact Hp.
Qed.

(** X3. Tokens that are not empty and are made of ASCII bytes other than
    white space survive a round trip: joined by single spaces and split,
    they come back as they were. *)
Theorem Fields_Join_round_trip (ts : list string) :
  Forall (fun t => t <> EmptyString
                   /\ Forall (fun c => plainByte c = true)
                        (list_ascii_of_string t)) ts ->
  Fields (Join ts " ") = ts.
Proof.
  intros Hts. unfold Fields, FieldsFunc.
  rewrite bytes_Join, fieldsLoop_join; [apply strings_map_inverse|].
  apply Forall_map. eapply Forall_impl; [exact Hts|].
  intros t [Hne Hp]. split.
  - destruct t; [done|discriminate].
  - apply plain_bytes_field. exact Hp.
Qed.

Lemma ascii_concat s : forall start,
  Forall (fun c => isASCII c = true) s ->
  concat (fieldsLoop IsSpace start s)
  = pending start (List.filter (fun c => negb (asciiSpace c)) s).
Proof.
  induction s as [|b s IH]; intros start Hs.
  - simp fieldsLoop. destruct start; cbn; rewrite ?app_nil_r; reflexivity.
  - inversion Hs as [|? ? Hb Hs']; subst.
    rewrite fieldsLoop_equation_2, ascii_decode by exact Hb.
    rewrite ascii_IsSpace by exact Hb.
    cbn [Nat.sub skipn firstn List.filter].
    destruct (asciiSpace b); cbn [negb].
    + destruct start; cbn [concat]; rewrite IH by exact Hs'; reflexivity.
    + rewrite IH by exact Hs'. destruct start; cbn [pending app];
        rewrite <- ?app_assoc; reflexivity.
Qed.

(** X4. On an ASCII string, tokenization loses nothing but white space: the
    tokens, put end to end, are the string without its white space. *)
Theorem Fields_keeps_content (s : string) :
  Forall (fun c => isASCII c = true) (list_ascii_of_string s) ->
  concat (map list_ascii_of_string (Fields s))
  = List.filter (fun c => negb (asciiSpace c)) (list_ascii_of_string s).
Proof.
  intros Hs. unfold Fields, FieldsFunc.
  rewrite bytes_map_inverse, ascii_concat by exact Hs. reflexivity.
Qed.

Lemma blank_fields s :
  Forall (fun c => asciiSpace c = true) s ->
  fieldsLoop IsSpace None s = [].
Proof.
  induction 1 as [|b s Hb _ IH]; [reflexivity|].
  assert (Ha : isASCII b = true).
  { unfold asciiSpace in Hb. unfold isASCII. cbv zeta in Hb.
    apply N.ltb_lt.
    destruct (N.eqb_spec (N_of_ascii b) 32); [lia|].
    rewrite orb_false_r in Hb. apply andb_true_iff in Hb.
    destruct Hb as [_ Hb]. apply N.leb_le in Hb. lia. }
  rewrite fieldsLoop_equation_2, ascii_decode by exact Ha.
  rewrite ascii_IsSpace, Hb by exact Ha. exact IH.
Qed.

Lemma Fields_space_witness :
  Fields ("get pods" +:+ " " +:+ " -n  kube-system")
  = ["get"; "pods"] ++ ["-n"; "kube-system"].
Proof. exact (Fields_space "get pods" " -n  kube-system"). Defined.

Lemma Fields_tokens_clean_witness :
  "'app" <> EmptyString
  /\ Forall (fun c => asciiSpace c = false) (list_ascii_of_string "'app").
Proof.
  apply (Fields_tokens_clean "get pods -l 'app in (a, b)'" "'app").
  vm_compute. right. right. right. left. reflexivity.
Defined.

Lemma Fields_Join_round_trip_witness :
  Fields (Join ["get"; "pods"; "-n"; "kube-system"] " ")
  = ["get"; "pods"; "-n"; "kube-system"].
Proof.
  apply (Fields_Join_round_trip ["get"; "pods"; "-n"; "kube-system"]).
  repeat constructor; discriminate.
Defined.

Lemma Fields_keeps_content_witness :
  concat (map list_ascii_of_string (Fields " get   pods "))
  = list_ascii_of_string "getpods".
Proof.
  apply (Fields_keeps_content " get   pods ").
  repeat constructor.
Defined.

End FieldsMore.

(** ** More on the command handler *)

Module ServerMore.

Import Mcp Server StringFacts StringsSpec.

Section Handler.

Variable Ctx : Type.
Variable run : Ctx -> string -> list string -> Duration.t -> RunResult.

#[local] Abbreviation handle := (handleCommandExecution Ctx run).

(** The four ways the handler ends once the payload holds an argument
    string. *)
Lemma handle_valid ctx request commandName timeout m cmdArgs :
  Arguments request = VMap m ->
  m !! "arguments" = Some (VString cmdArgs) ->
  let commandArgs := Strings.Fields cmdArgs in
  let cmd := run ctx commandName commandArgs timeout in
  let tr :=
    [Printed ("executing command: " +:+ commandName +:+ " "
              +:+ Strings.Join commandArgs " " +:+ nl);
     Spawned commandName commandArgs timeout] in
  handle ctx request commandName timeout =
  match runErr cmd with
  | ExitError code =>
      let msg := commandName +:+ " exited with code " +:+ Fmt.d code
                 +:+ ": " +:+ stderr cmd in
      {| result := emptyResult; err := Some msg;
         trace := tr ++ [Printed (msg +:+ nl)] |}
  | OtherError e =>
      match ctxErr cmd with
      | DeadlineExceeded =>
          let msg := commandName +:+ " command timed out after "
                     +:+ Duration.String timeout in
          {| result := emptyResult; err := Some msg;
             trace := tr ++ [Printed (msg +:+ nl)] |}
      | _ =>
          let msg := commandName +:+ " execution failed: " +:+ e
                     +:+ nl +:+ "stderr: " +:+ stderr cmd in
          {| result := emptyResult; err := Some msg;
             trace := tr ++ [Printed msg] |}
      end
  | NoError =>
      {| result := NewToolResultText
                     (if String.eqb (stdout cmd) EmptyString
                      then noOutput else stdout cmd);
         err := None; trace := tr |}
  end.
Proof.
  intros Hm Ha. unfold handleCommandExecution. rewrite Hm, Ha. reflexivity.
Qed.

(** The handler either rejects the payload or holds its argument string. *)
Lemma payload_cases request :
  (exists m cmdArgs,
      Arguments request = VMap m
      /\ m !! "arguments" = Some (VString cmdArgs))
  \/ (forall m s, Arguments request = VMap m ->
                  m !! "arguments" <> Some (VString s)).
Proof.
  destruct (Arguments request) as [| | | | |m] eqn:E;
    try (right; intros; discriminate).
  destruct (m !! "arguments") as [[| | |s| |]|] eqn:Ha;
    try (right; intros m' s' [= <-]; rewrite Ha; discriminate).
  left. exists m, s. split; [reflexivity | exact Ha].
Qed.

Lemma rejected ctx request commandName timeout :
  (forall m s, Arguments request = VMap m ->
               m !! "arguments" <> Some (VString s)) ->
  exists msg,
    handle ctx request commandName timeout
    = {| result := emptyResult; err := Some msg; trace := [] |}.
Proof.
  intros H. unfold handleCommandExecution.
  destruct (Arguments request) as [| | | | |m] eqn:E;
    try (eexists; reflexivity).
  destruct (m !! "arguments") as [[| | |s| |]|] eqn:Ha;
    try (eexists; reflexivity).
  destruct (H m s eq_refl Ha).
Qed.

Ltac run_cases cmd :=
  destruct (runErr cmd) as [|code|e];
  [| | destruct (ctxErr cmd)].

(** X5. Whatever the payload, a call starts at most one child process, and
    the process it starts is the command the handler was registered for,
    under the handler's timeout, with the tokens of the payload's argument
    string as arguments: the payload never chooses the program. *)
Theorem spawn_is_registered_command ctx request commandName timeout
  name args t :
  In (Spawned name args t) (trace (handle ctx request commandName timeout)) ->
  spawns (trace (handle ctx request commandName timeout)) = 1
  /\ name = commandName /\ t = timeout
  /\ exists m cmdArgs,
      Arguments request = VMap m
      /\ m !! "arguments" = Some (VString cmdArgs)
      /\ args = Strings.Fields cmdArgs.
Proof.
  destruct (payload_cases request) as [(m & cmdArgs & Hm & Ha) | Hbad].
  - rewrite (handle_valid _ _ _ _ _ _ Hm Ha). cbv zeta.
    set (cmd := run ctx commandName (Strings.Fields cmdArgs) timeout).
    intros Hin.
    assert (Hs : Spawned name args t
                 = Spawned commandName (Strings.Fields cmdArgs) timeout).
    { run_cases cmd; cbn [trace app In] in Hin;
        repeat (destruct Hin as [Hin | Hin]; try discriminate);
        try contradiction; symmetry; exact Hin. }
    injection Hs as -> -> ->.
    split; [run_cases cmd; reflexivity|].
    split; [reflexivity | split; [reflexivity|]].
    exists m, cmdArgs. auto.
  - destruct (rejected ctx request commandName timeout Hbad) as [msg ->].
    intros [].
Qed.

(** X6. A call returns either a result or an error, never both: with an
    error the result is the zero result, which has no content and is not
    marked as an error; without one the result is not marked as an error
    and holds exactly one block, of type [text], whose text is not
    empty. *)
Theorem result_or_error ctx request commandName timeout :
  let o := handleCommandExecution Ctx run ctx request commandName timeout in
  (forall msg,
      err o = Some msg ->
      result o = {| Content_ := []; IsError := false |})
  /\ (err o = None ->
      exists text,
        text <> EmptyString
        /\ result o
           = {| Content_ := [TextContent "text" text]; IsError := false |}).
Proof.
  cbv zeta.
  destruct (payload_cases request) as [(m & cmdArgs & Hm & Ha) | Hbad].
  - rewrite (handle_valid _ _ _ _ _ _ Hm Ha). cbv zeta.
    set (cmd := run ctx commandName (Strings.Fields cmdArgs) timeout).
    run_cases cmd; cbn [err result]; (split; [reflexivity || discriminate|]);
      try discriminate.
    intros _. destruct (String.eqb_spec (stdout cmd) EmptyString) as [He|He].
    + exists noOutput. split; [discriminate | reflexivity].
    + exists (stdout cmd). split; [exact He | reflexivity].
  - destruct (rejected ctx request commandName timeout Hbad) as [msg ->].
    cbn [err result]. split; [reflexivity | discriminate].
Qed.

(** X7. When [cmd.Run] fails with an error that is not an exit error, the
    call fails after that one run: with the timeout message, which names
    the configured duration, when the deadline has passed, and otherwise
    (also when the context was cancelled) with the execution failure
    message, which embeds the error and the captured standard error. *)
Theorem run_failure_classified ctx request commandName timeout m cmdArgs e :
  Arguments request = VMap m ->
  m !! "arguments" = Some (VString cmdArgs) ->
  runErr (run ctx commandName (Strings.Fields cmdArgs) timeout)
  = OtherError e ->
  let cmd := run ctx commandName (Strings.Fields cmdArgs) timeout in
  let o := handle ctx request commandName timeout in
  result o = emptyResult
  /\ spawns (trace o) = 1
  /\ err o
     = Some (match ctxErr cmd with
             | DeadlineExceeded =>
                 commandName +:+ " command timed out after "
                 +:+ Duration.String timeout
             | _ =>
                 commandName +:+ " execution failed: " +:+ e +:+ nl
                 +:+ "stderr: " +:+ stderr cmd
             end).
Proof.
  intros Hm Ha Hrun cmd o. subst o cmd.
  rewrite (handle_valid _ _ _ _ _ _ Hm Ha). cbv zeta. rewrite Hrun.
  destruct (ctxErr (run ctx commandName (Strings.Fields cmdArgs) timeout));
    split; try reflexivity; split; reflexivity.
Qed.

(** X8. The handler reads the argument string through its tokens only: a
    payload and the payload whose argument string is those tokens joined by
    single spaces give the same result, the same error and the same
    effects. *)
Theorem whitespace_insensitive ctx request request' commandName timeout
  m m' cmdArgs :
  Arguments request = VMap m ->
  m !! "arguments" = Some (VString cmdArgs) ->
  Arguments request' = VMap m' ->
  m' !! "arguments"
  = Some (VString (Strings.Join (Strings.Fields cmdArgs) " ")) ->
  handle ctx request' commandName timeout
  = handle ctx request commandName timeout.
Proof.
  intros Hm Ha Hm' Ha'.
  rewrite (handle_valid _ _ _ _ _ _ Hm Ha), (handle_valid _ _ _ _ _ _ Hm' Ha').
  cbv zeta. rewrite FieldsMore.Fields_rejoin. reflexivity.
Qed.

(** X9. An argument string that is empty, or holds nothing but ASCII white
    space, is not rejected: the command is run with no argument at all. *)
Theorem blank_arguments_run_bare_command ctx request commandName timeout
  m cmdArgs :
  Arguments request = VMap m ->
  m !! "arguments" = Some (VString cmdArgs) ->
  Forall (fun c => asciiSpace c = true) (list_ascii_of_string cmdArgs) ->
  In (Spawned commandName [] timeout)
    (trace (handle ctx request commandName timeout))
  /\ hd_error (trace (handle ctx request commandName timeout))
     = Some (Printed ("executing command: " +:+ commandName +:+ " " +:+ nl)).
Proof.
  intros Hm Ha Hblank.
  rewrite (handle_valid _ _ _ _ _ _ Hm Ha). cbv zeta.
  assert (Hf : Strings.Fields cmdArgs = []).
  { unfold Strings.Fields, Strings.FieldsFunc.
    rewrite FieldsMore.blank_fields by exact Hblank. reflexivity. }
  rewrite Hf. cbn [Strings.Join].
  set (cmd := run ctx commandName [] timeout).
  run_cases cmd; cbn [trace app In hd_error]; split; auto.
Qed.

(** X10. The tools that [main] registers have distinct names, and the
    handler of each runs the program that bears the tool's name, under a
    timeout of thirty seconds. *)
Theorem registry_binds_tool_to_command :
  NoDup (map fst (registeredTools Ctx run))
  /\ forall tool handler ctx request name args t,
      In (tool, handler) (registeredTools Ctx run) ->
      In (Spawned name args t) (trace (handler ctx request)) ->
      name = tool /\ t = (30 * Duration.Second)%Z.
Proof.
  split.
  - cbn [registeredTools map fst].
    apply NoDup_cons_2; [|apply NoDup_cons_2; [|apply NoDup_nil_2]].
    + apply not_elem_of_cons. split; [discriminate | apply not_elem_of_nil].
    + apply not_elem_of_nil.
  - intros tool handler ctx request name args t Hin Hs.
    assert (Hh : handler = fun ctx req =>
                   handle ctx req tool (30 * Duration.Second)%Z).
    { destruct Hin as [[= <- <-] | [[= <- <-] | []]]; reflexivity. }
    subst handler.
    destruct (payload_cases request) as [(m & cmdArgs & Hm & Ha) | Hbad].
    + rewrite (handle_valid _ _ _ _ _ _ Hm Ha) in Hs. cbv zeta in Hs.
      set (cmd := run ctx tool (Strings.Fields cmdArgs)
                    (30 * Duration.Second)%Z) in Hs.
      assert (Heq : Spawned name args t
                    = Spawned tool (Strings.Fields cmdArgs)
                        (30 * Duration.Second)%Z).
      { revert Hs. run_cases cmd; cbn [trace app In]; intros Hs;
          repeat (destruct Hs as [Hs | Hs]; try discriminate);
          try contradiction; symmetry; exact Hs. }
      injection Heq as -> _ ->. split; reflexivity.
    + destruct (rejected ctx request tool (30 * Duration.Second)%Z Hbad)
        as [msg Hr].
      rewrite Hr in Hs. destruct Hs.
Qed.

End Handler.

Import Samples MoreSamples.

Lemma spawn_is_registered_command_witness :
  spawns (trace (handleCommandExecution unit (completes "ok") tt
                   (callWith "kubectl" "get pods") "kubectl"
                   (30 * Duration.Second)%Z)) = 1
  /\ "kubectl" = "kubectl"
  /\ (30 * Duration.Second)%Z = (30 * Duration.Second)%Z
  /\ exists m cmdArgs,
      Arguments (callWith "kubectl" "get pods") = VMap m
      /\ m !! "arguments" = Some (VString cmdArgs)
      /\ ["get"; "pods"] = Strings.Fields cmdArgs.
Proof.
  apply (spawn_is_registered_command unit (completes "ok") tt
           (callWith "kubectl" "get pods") "kubectl"
           (30 * Duration.Second)%Z "kubectl" ["get"; "pods"]
           (30 * Duration.Second)%Z).
  vm_compute. right. left. reflexivity.
Defined.

Lemma result_or_error_witness :
  exists text,
    text <> EmptyString
    /\ result (handleCommandExecution unit (completes EmptyString) tt
                 (callWith "kubectl" "get pods") "kubectl"
                 (30 * Duration.Second)%Z)
       = {| Content_ := [TextContent "text" text]; IsError := false |}.
Proof.
  apply (proj2 (result_or_error unit (completes EmptyString) tt
                  (callWith "kubectl" "get pods") "kubectl"
                  (30 * Duration.Second)%Z)).
  reflexivity.
Defined.

Lemma run_failure_classified_witness :
  err (handleCommandExecution unit notFound tt
         (callWith "kubectl" "get pods") "kubectl" (30 * Duration.Second)%Z)
  = Some ("kubectl execution failed: exec: " +:+ dq +:+ "kubectl" +:+ dq
          +:+ ": executable file not found in $PATH" +:+ nl +:+ "stderr: ")
  /\ err (handleCommandExecution unit cancelled tt
            (callWith "kubectl" "get pods") "kubectl" (30 * Duration.Second)%Z)
     = Some ("kubectl execution failed: context canceled" +:+ nl
             +:+ "stderr: ")
  /\ err (handleCommandExecution unit expiredBeforeStart tt
            (callWith "kubectl" "get pods") "kubectl" (30 * Duration.Second)%Z)
     = Some "kubectl command timed out after 30s".
Proof.
  split; [|split].
  - exact (proj2 (proj2 (run_failure_classified unit notFound tt
                           (callWith "kubectl" "get pods") "kubectl"
                           (30 * Duration.Second)%Z
                           {[ "arguments" := VString "get pods" ]} "get pods"
                           _ eq_refl eq_refl eq_refl))).
  - exact (proj2 (proj2 (run_failure_classified unit cancelled tt
                           (callWith "kubectl" "get pods") "kubectl"
                           (30 * Duration.Second)%Z
                           {[ "arguments" := VString "get pods" ]} "get pods"
                           _ eq_refl eq_refl eq_refl))).
  - exact (proj2 (proj2 (run_failure_classified unit expiredBeforeStart tt
                           (callWith "kubectl" "get pods") "kubectl"
                           (30 * Duration.Second)%Z
                           {[ "arguments" := VString "get pods" ]} "get pods"
                           _ eq_refl eq_refl eq_refl))).
Defined.

Lemma whitespace_insensitive_witness :
  handleCommandExecution unit (completes "ok") tt
    (callWith "kubectl" "get pods") "kubectl" (30 * Duration.Second)%Z
  = handleCommandExecution unit (completes "ok") tt
      (callWith "kubectl" "  get   pods ") "kubectl" (30 * Duration.Second)%Z.
Proof.
  apply (whitespace_insensitive unit (completes "ok") tt
           (callWith "kubectl" "  get   pods ")
           (callWith "kubectl" "get pods") "kubectl" (30 * Duration.Second)%Z
           {[ "arguments" := VString "  get   pods " ]}
           {[ "arguments" := VString "get pods" ]} "  get   pods ");
    reflexivity.
Defined.

Lemma blank_arguments_run_bare_command_witness :
  In (Spawned "k8sgpt" [] (30 * Duration.Second)%Z)
    (trace (handleCommandExecution unit (completes "ok") tt
              (callWith "k8sgpt" "  ") "k8sgpt" (30 * Duration.Second)%Z))
  /\ hd_error (trace (handleCommandExecution unit (completes "ok") tt
                        (callWith "k8sgpt" "  ") "k8sgpt"
                        (30 * Duration.Second)%Z))
     = Some (Printed ("executing command: k8sgpt " +:+ nl)).
Proof.
  apply (blank_arguments_run_bare_command unit (completes "ok") tt
           (callWith "k8sgpt" "  ") "k8sgpt" (30 * Duration.Second)%Z
           {[ "arguments" := VString "  " ]} "  ");
    [reflexivity | reflexivity | repeat constructor].
Defined.

Lemma registry_binds_tool_to_command_witness :
  "kubectl" = "kubectl"
  /\ (30 * Duration.Second)%Z = (30 * Duration.Second)%Z.
Proof.
  apply (proj2 (registry_binds_tool_to_command unit (completes "ok"))
           "kubectl"
           (fun ctx req => handleCommandExecution unit (completes "ok") ctx req
                             "kubectl" (30 * Duration.Second)%Z)
           tt (callWith "kubectl" "get pods") "kubectl" ["get"; "pods"]
           (30 * Duration.Second)%Z).
  - right. left. reflexivity.
  - vm_compute. right. left. reflexivity.
Defined.

End ServerMore.

(** ** More on the agent loop *)

Module ClientMore.

Import Mcp OpenAI Client ClientSpec ClientFacts.

Lemma sleeps_app tr1 tr2 : sleeps (tr1 ++ tr2) = sleeps tr1 + sleeps tr2.
Proof. unfold sleeps. rewrite List.filter_app, length_app. reflexivity. Qed.

Lemma calledNames_app tr1 tr2 :
  calledNames (tr1 ++ tr2) = calledNames tr1 ++ calledNames tr2.
Proof. unfold calledNames. apply flat_map_app. Qed.

Lemma extends_refl p : extends p p.
Proof.
  split; [reflexivity | split; [reflexivity | split; [reflexivity|]]].
  exists []. rewrite app_nil_r. reflexivity.
Qed.








Lemma extends_append p0 p m : extends p0 p -> extends p0 (appendMessage p m).
Proof.
  intros (Ht & Hs & Hm & more & Hmsg).
  split; [exact Ht | split; [exact Hs | split; [exact Hm|]]].
  exists (more ++ [m]). cbn [appendMessage Messages].
  rewrite Hmsg, app_assoc. reflexivity.
Qed.

Section Facts.

Variable World Ctx : Type.
Variable chat :
  World -> Ctx -> ChatCompletionNewParams -> World * (ChatCompletion + string).
Variable callTool :
  World -> Ctx -> Duration.t -> CallToolRequest ->
  World * (option CallToolResult * option string).
Variable unmarshal : string -> gmap string GoValue + string.
Variable formatContent : list Mcp.Content -> string.

#[local] Abbreviation step :=
  (toolCallStep World Ctx callTool unmarshal formatContent).
#[local] Abbreviation round_ :=
  (round World Ctx chat callTool unmarshal formatContent).
#[local] Abbreviation loop_ :=
  (loop World Ctx chat callTool unmarshal formatContent).
#[local] Abbreviation runPrompt_ :=
  (runPrompt World Ctx chat callTool unmarshal formatContent).

#[local] Abbreviation sound := (@ClientSpec.sound World).
#[local] Abbreviation after := (@ClientSpec.after World).

Ltac step_cases :=
  unfold toolCallStep;
  repeat match goal with
    | |- context [match unmarshal ?a with _ => _ end] => destruct (unmarshal a)
    | |- context [let '(_, _) := callTool ?w ?c ?t ?r in _] =>
        destruct (callTool w c t r) as [? [[?|] [?|]]]
    | |- context [if ?b then _ else _] => destruct b
    end.

Lemma step_sound p0 ctx iteration (st : State World) tc :
  sound p0 st -> sound p0 (step ctx iteration st tc).
Proof.
  intros [Hp Ht]. unfold sound.
  step_cases; cbn [params trace emit append world];
    (split; [repeat apply extends_append; exact Hp|]);
    repeat (apply Forall_app; split); try exact Ht;
    repeat constructor; eexists; reflexivity.
Qed.

Lemma steps_sound p0 ctx iteration tcs : forall st : State World,
  sound p0 st -> sound p0 (fold_left (step ctx iteration) tcs st).
Proof.
  induction tcs as [|tc tcs IH]; intros st Hst; [exact Hst|].
  cbn [fold_left]. apply IH, step_sound, Hst.
Qed.

Lemma step_sleeps ctx iteration (st : State World) tc :
  sleeps (trace (step ctx iteration st tc)) + calls (trace st)
  <= sleeps (trace st) + calls (trace (step ctx iteration st tc)).
Proof.
  step_cases; cbn [trace emit append];
    rewrite ?sleeps_app, ?calls_app; cbn; lia.
Qed.

Lemma steps_sleeps ctx iteration tcs : forall st : State World,
  sleeps (trace (fold_left (step ctx iteration) tcs st)) + calls (trace st)
  <= sleeps (trace st)
     + calls (trace (fold_left (step ctx iteration) tcs st)).
Proof.
  induction tcs as [|tc tcs IH]; intros st; [cbn; lia|].
  cbn [fold_left]. specialize (IH (step ctx iteration st tc)).
  pose proof (step_sleeps ctx iteration st tc). lia.
Qed.

Lemma step_calledNames ctx iteration (st : State World) tc :
  calledNames (trace (step ctx iteration st tc))
  = calledNames (trace st)
    ++ (if decodable unmarshal tc then [FunctionName tc] else []).
Proof.
  unfold decodable. step_cases; cbn [trace emit append];
    rewrite ?calledNames_app; cbn; rewrite ?app_nil_r; reflexivity.
Qed.

Lemma round_sound p0 ctx iteration (st : State World) :
  sound p0 st -> sound p0 (after (round_ ctx iteration st)).
Proof.
  intros [Hp Ht]. unfold round.
  destruct (chat (world st) ctx (params st)) as [w [c|msg]].
  - assert (Hst : sound p0 {| world := w; params := params st;
                              trace := trace st ++ [Requested (params st)] |}).
    { split; [exact Hp|]. cbn [trace]. apply Forall_app. split; [exact Ht|].
      constructor; [exact Hp | constructor]. }
    destruct (Choices c) as [|ch rest]; [exact Hst|].
    destruct Hst as [Hp' Ht']. cbn [params trace] in Hp', Ht'.
    destruct (negb _).
    + split; [exact Hp'|]. cbn [ClientSpec.after trace emit].
      apply Forall_app. split; [exact Ht' | repeat constructor].
    + destruct (length _ =? 0)%nat.
      * split; [exact Hp'|]. cbn [ClientSpec.after trace emit].
        apply Forall_app. split; [exact Ht' | repeat constructor].
      * cbn [ClientSpec.after]. apply steps_sound. split; [exact Hp'|].
        cbn [trace emit]. apply Forall_app.
        split; [exact Ht' | repeat constructor].
  - split; [exact Hp|]. cbn [ClientSpec.after trace]. apply Forall_app.
    split; [exact Ht|]. constructor; [exact Hp | constructor].
Qed.

Lemma round_requests ctx iteration (st : State World) :
  requests (trace (after (round_ ctx iteration st)))
  = requests (trace st) + 1.
Proof.
  unfold round.
  destruct (chat (world st) ctx (params st)) as [w [c|msg]].
  - destruct (Choices c) as [|ch rest].
    + cbn [ClientSpec.after trace]. rewrite requests_app. reflexivity.
    + destruct (negb _); [|destruct (length _ =? 0)%nat];
        cbn [ClientSpec.after trace emit]; rewrite ?steps_requests; cbn [trace emit];
        rewrite !requests_app; cbn; lia.
  - cbn [ClientSpec.after trace]. rewrite requests_app. reflexivity.
Qed.

Lemma round_sleeps ctx iteration (st : State World) :
  sleeps (trace (after (round_ ctx iteration st))) + calls (trace st)
  <= sleeps (trace st) + calls (trace (after (round_ ctx iteration st))).
Proof.
  unfold round.
  destruct (chat (world st) ctx (params st)) as [w [c|msg]].
  - destruct (Choices c) as [|ch rest].
    + cbn [ClientSpec.after trace]. rewrite sleeps_app, calls_app. cbn. lia.
    + destruct (negb _); [|destruct (length _ =? 0)%nat];
        cbn [ClientSpec.after trace emit];
        try (rewrite !sleeps_app, !calls_app; cbn; lia).
      match goal with
      | |- context [fold_left ?f ?l ?s] =>
          pose proof (steps_sleeps ctx iteration l s) as Hs
      end.
      cbn [trace emit] in Hs. rewrite !sleeps_app, !calls_app in Hs.
      cbn in Hs. lia.
  - cbn [ClientSpec.after trace]. rewrite sleeps_app, calls_app. cbn. lia.
Qed.

(** The loop keeps what its rounds keep. *)
Lemma loop_keeps (P : State World -> Prop) ctx maxIterations :
  (forall iteration st, P st -> P (after (round_ ctx iteration st))) ->
  (forall st e, P st -> P (emit st (Printed e))) ->
  forall n iteration (st : State World),
    maxIterations - iteration = n ->
    P st -> P (snd (loop_ ctx maxIterations iteration st)).
Proof.
  intros Hround Hprint. induction n as [|n IH]; intros iteration st Hn Hst;
    rewrite loop_unfold; destruct (lt_dec iteration maxIterations); try lia.
  - apply Hprint, Hst.
  - specialize (Hround iteration st Hst).
    destruct (round_ ctx iteration st) as [x st'|st']; [exact Hround|].
    apply IH; [lia | exact Hround].
Qed.





Lemma loop_sound p0 ctx maxIterations iteration (st : State World) :
  sound p0 st -> sound p0 (snd (loop_ ctx maxIterations iteration st)).
Proof.
  apply (loop_keeps (sound p0) ctx maxIterations) with
    (n := maxIterations - iteration); [| |reflexivity].
  - intros it s. apply round_sound.
  - intros s e [Hp Ht]. split; [exact Hp|]. cbn [trace emit].
    apply Forall_app. split; [exact Ht | repeat constructor].
Qed.






Lemma loop_sleeps ctx maxIterations iteration (st : State World) :
  sleeps (trace st) <= calls (trace st) ->
  sleeps (trace (snd (loop_ ctx maxIterations iteration st)))
  <= calls (trace (snd (loop_ ctx maxIterations iteration st))).
Proof.
  apply (loop_keeps (fun s => sleeps (trace s) <= calls (trace s))
           ctx maxIterations) with (n := maxIterations - iteration);
    [| |reflexivity].
  - intros it s Hs. pose proof (round_sleeps ctx it s). lia.
  - intros s e Hs. cbn [trace emit]. rewrite sleeps_app, calls_app. cbn. lia.
Qed.

Lemma loop_requests ctx maxIterations :
  forall n iteration (st : State World),
    maxIterations - iteration = n ->
    requests (trace (snd (loop_ ctx maxIterations iteration st)))
    <= requests (trace st) + n
    /\ (0 < n ->
        requests (trace st) + 1
        <= requests (trace (snd (loop_ ctx maxIterations iteration st)))).
Proof.
  induction n as [|n IH]; intros iteration st Hn;
    rewrite loop_unfold; destruct (lt_dec iteration maxIterations); try lia.
  - cbn [snd trace emit]. rewrite requests_app. cbn. lia.
  - pose proof (round_requests ctx iteration st) as Hr.
    destruct (round_ ctx iteration st) as [x st'|st']; cbn [ClientSpec.after snd] in *.
    + lia.
    + destruct (IH (S iteration) st' ltac:(lia)) as [Hle Hge].
      split; [lia|]. intros _.
      destruct n as [|n].
      * assert (Hstop : ~ S iteration < maxIterations) by lia.
        rewrite loop_unfold. destruct (lt_dec (S iteration) maxIterations);
          [lia|]. cbn [snd trace emit]. rewrite requests_app. cbn. lia.
      * specialize (Hge ltac:(lia)). lia.
Qed.

Lemma loop_panic ctx maxIterations :
  forall n iteration (st : State World),
    maxIterations - iteration = n ->
    fst (loop_ ctx maxIterations iteration st) = Panicked ->
    exists w p w',
      chat w ctx p = (w', inl {| Choices := [] |}).
Proof.
  induction n as [|n IH]; intros iteration st Hn; rewrite loop_unfold;
    destruct (lt_dec iteration maxIterations); try lia; try discriminate.
  destruct (round_ ctx iteration st) as [x st'|st'] eqn:Hr; cbn [fst].
  - intros ->. revert Hr. unfold round.
    destruct (chat (world st) ctx (params st)) as [w [[chs]|msg]] eqn:Hc;
      [|discriminate].
    cbn [Choices]. destruct chs as [|ch rest].
    + intros _. exists (world st), (params st), w. exact Hc.
    + destruct (negb _); [discriminate|].
      destruct (length _ =? 0)%nat; discriminate.
  - apply IH. lia.
Qed.

(** X11. A tool call whose argument payload does not decode is not sent to
    the tool service: the loop appends one message, of role [system], whose
    text quotes the decoding error and asks for valid JSON, does not pause,
    and goes on. *)
Theorem parse_failure_skips_tool ctx iteration (st : State World) tc e :
  unmarshal (FunctionArguments tc) = inr e ->
  let st' := step ctx iteration st tc in
  world st' = world st
  /\ Tools (params st') = Tools (params st)
  /\ Messages (params st')
     = Messages (params st)
       ++ [ToParam {| Role := "system";
                      Content :=
                        "Error parsing tool arguments: " +:+ e
                        +:+ ". Please try again with valid JSON.";
                      ToolCalls := [] |}]
  /\ Fmt.embeds e
       ("Error parsing tool arguments: " +:+ e
        +:+ ". Please try again with valid JSON.")
  /\ trace st'
     = trace st
       ++ [Printed ("Iteration " +:+ Fmt.d (Z.of_nat iteration)
                    +:+ " - Tool call: " +:+ FunctionName tc +:+ nl);
           Printed ("Tool call arguments: " +:+ FunctionArguments tc
                    +:+ nl)].
Proof.
  intros Hu st'. subst st'. unfold toolCallStep. rewrite Hu.
  unfold append, emit. cbn [world params trace appendMessage Messages Tools].
  rewrite <- app_assoc.
  split; [reflexivity | split; [reflexivity | split; [reflexivity|]]].
  split; [apply StringFacts.embeds_middle | reflexivity].
Qed.

(** X12. A tool call that succeeds with content appends two messages, in
    this order: one of role [assistant] whose text is the content as [%v]
    prints it, then one of role [system] with the fixed hint to return the
    information without further tool calls; there is no pause. *)
Theorem tool_result_appended ctx iteration (st : State World) tc args w r :
  unmarshal (FunctionArguments tc) = inl args ->
  callTool (world st) ctx (30 * Duration.Second)%Z
    {| Mcp.Name := FunctionName tc; Arguments := VMap args |}
  = (w, (Some r, None)) ->
  Content_ r <> [] ->
  let st' := step ctx iteration st tc in
  Messages (params st')
  = Messages (params st)
    ++ [ToParam {| Role := "assistant";
                   Content := formatContent (Content_ r);
                   ToolCalls := [] |};
        ToParam {| Role := "system";
                   Content :=
                     "If you have obtained the requested information. Please return it directly to the user without making additional tool calls.";
                   ToolCalls := [] |}]
  /\ sleeps (trace st') = sleeps (trace st)
  /\ calls (trace st') = calls (trace st) + 1
  /\ world st' = w.
Proof.
  intros Hu Hcall Hr st'. subst st'. unfold toolCallStep. rewrite Hu.
  cbn [emit world params trace]. rewrite Hcall.
  destruct (Content_ r) as [|c cs] eqn:Hc; [done|].
  cbn [length Nat.ltb Nat.leb]. unfold append, emit.
  cbn [world params trace appendMessage Messages].
  rewrite !sleeps_app, !calls_app, <- app_assoc. cbn.
  split; [reflexivity | split; [lia | split; [lia | reflexivity]]].
Qed.

(** X13. In any round, a failed request to the oracle ends the run at once
    with the error [failed to create chat completion: <error>]; nothing is
    printed, no tool is invoked and no message is appended. *)
Theorem oracle_failure_returned ctx maxIterations iteration
  (st : State World) w msg :
  iteration < maxIterations ->
  chat (world st) ctx (params st) = (w, inr msg) ->
  loop_ ctx maxIterations iteration st =
  (Returned (Some ("failed to create chat completion: " +:+ msg)),
   {| world := w; params := params st;
      trace := trace st ++ [Requested (params st)] |}).
Proof.
  intros Hlt Hchat. rewrite loop_unfold.
  destruct (lt_dec iteration maxIterations); [|lia].
  unfold round. rewrite Hchat. reflexivity.
Qed.

(** X14. A completion without choices makes the run panic in the round that
    receives it (the first choice is read unguarded), and this is the only
    way [runPrompt] panics. *)
Theorem empty_choices_panic ctx :
  (forall maxIterations iteration (st : State World) w,
      iteration < maxIterations ->
      chat (world st) ctx (params st) = (w, inl {| Choices := [] |}) ->
      loop_ ctx maxIterations iteration st =
      (Panicked, {| world := w; params := params st;
                    trace := trace st ++ [Requested (params st)] |}))
  /\ (forall w question tools,
         fst (runPrompt_ w question tools ctx) = Panicked ->
         exists w1 p w2, chat w1 ctx p = (w2, inl {| Choices := [] |})).
Proof.
  split.
  - intros maxIterations iteration st w Hlt Hchat. rewrite loop_unfold.
    destruct (lt_dec iteration maxIterations); [|lia].
    unfold round. rewrite Hchat. reflexivity.
  - intros w question tools. unfold runPrompt.
    apply (loop_panic ctx 5 4). reflexivity.
Qed.

(** X15. Whatever the oracle and the tool service do, [runPrompt] makes at
    least one and at most four requests to the oracle. *)
Theorem requests_bounded ctx w question tools :
  1 <= requests (trace (snd (runPrompt_ w question tools ctx))) <= 4.
Proof.
  unfold runPrompt.
  destruct (loop_requests ctx 5 4 1
              {| world := w; params := initialParams question tools;
                 trace := [] |} eq_refl) as [Hle Hge].
  cbn [trace] in Hle, Hge. change (requests []) with 0 in Hle, Hge.
  specialize (Hge ltac:(lia)). lia.
Qed.

Lemma run_sound ctx w question tools :
  sound (initialParams question tools)
    (snd (runPrompt_ w question tools ctx)).
Proof.
  unfold runPrompt. apply loop_sound.
  split; [apply extends_refl | constructor].
Qed.




Lemma run_requests ctx w question tools :
  requests (trace (snd (runPrompt_ w question tools ctx))) <= 4.
Proof.
  unfold runPrompt.
  destruct (loop_requests ctx 5 4 1
              {| world := w; params := initialParams question tools;
                 trace := [] |} eq_refl) as [Hle _].
  exact Hle.
Qed.

(** X17. Every call [runPrompt] makes to the tool service is made under a
    timeout of thirty seconds and carries a mapping as its arguments. *)
Theorem calls_well_formed ctx w question tools timeout req :
  In (Called timeout req) (trace (snd (runPrompt_ w question tools ctx))) ->
  timeout = (30 * Duration.Second)%Z
  /\ exists m, Mcp.Arguments req = VMap m.
Proof.
  intros Hin. destruct (run_sound ctx w question tools) as [_ Ht].
  rewrite Forall_forall in Ht. apply list_elem_of_In in Hin.
  exact (Ht _ Hin).
Qed.

(** X18. [runPrompt] pauses for two seconds at a time and never more often
    than it calls the tool service. *)
Theorem pauses_follow_calls ctx w question tools :
  (forall d,
      In (Slept d) (trace (snd (runPrompt_ w question tools ctx))) ->
      d = (2 * Duration.Second)%Z)
  /\ sleeps (trace (snd (runPrompt_ w question tools ctx)))
     <= calls (trace (snd (runPrompt_ w question tools ctx))).
Proof.
  split.
  - intros d Hin. destruct (run_sound ctx w question tools) as [_ Ht].
    rewrite Forall_forall in Ht. apply list_elem_of_In in Hin.
    exact (Ht _ Hin).
  - unfold runPrompt. apply loop_sleeps. cbn. lia.
Qed.

(** X19. The tool calls of a response are invoked one after the other in
    the order the oracle gave them, under the names the oracle gave them,
    those whose payload does not decode being left out. *)
Theorem calls_follow_intents ctx iteration tcs (st : State World) :
  calledNames (trace (fold_left (step ctx iteration) tcs st))
  = calledNames (trace st)
    ++ map FunctionName (List.filter (decodable unmarshal) tcs).
Proof.
  revert st. induction tcs as [|tc tcs IH]; intros st.
  - cbn. rewrite app_nil_r. reflexivity.
  - cbn [fold_left List.filter]. rewrite IH, step_calledNames.
    rewrite <- app_assoc.
    destruct (decodable unmarshal tc); reflexivity.
Qed.

End Facts.

Import Samples MoreSamples.

Lemma parse_failure_skips_tool_witness :
  Messages (params (toolCallStep nat unit failing garbled show tt 1 firstState
                      podsCall))
  = Messages (params firstState)
    ++ [ToParam {| Role := "system";
                   Content :=
                     "Error parsing tool arguments: unexpected end of JSON input. Please try again with valid JSON.";
                   ToolCalls := [] |}]
  /\ trace (toolCallStep nat unit failing garbled show tt 1 firstState
              podsCall)
     = trace firstState
       ++ [Printed ("Iteration 1 - Tool call: kubectl" +:+ nl);
           Printed ("Tool call arguments: " +:+ FunctionArguments podsCall
                    +:+ nl)].
Proof.
  pose proof (parse_failure_skips_tool nat unit failing garbled show tt 1
                firstState podsCall "unexpected end of JSON input" eq_refl)
    as (_ & _ & Hm & _ & Ht).
  split; [exact Hm | exact Ht].
Defined.

Lemma tool_result_appended_witness :
  Messages (params (toolCallStep nat unit listing decode render tt 1
                      firstState podsCall))
  = Messages (params firstState)
    ++ [ToParam {| Role := "assistant";
                   Content := "[{{<nil>} text web-1 Running}]";
                   ToolCalls := [] |};
        ToParam {| Role := "system";
                   Content :=
                     "If you have obtained the requested information. Please return it directly to the user without making additional tool calls.";
                   ToolCalls := [] |}].
Proof.
  refine (proj1 (tool_result_appended nat unit listing decode render tt 1
                   firstState podsCall
                   {[ "arguments" := VString "get pods" ]} 0
                   {| Content_ := [TextContent "text" "web-1 Running"];
                      IsError := false |} eq_refl eq_refl _)).
  discriminate.
Defined.

Lemma oracle_failure_returned_witness :
  loop nat unit unreachable listing decode show tt 5 1 firstState =
  (Returned (Some "failed to create chat completion: connection refused"),
   {| world := 1; params := params firstState;
      trace := trace firstState ++ [Requested (params firstState)] |}).
Proof.
  apply (oracle_failure_returned nat unit unreachable listing decode show tt
           5 1 firstState 1 "connection refused");
    [lia | reflexivity].
Defined.

Lemma empty_choices_panic_witness :
  loop nat unit choiceless listing decode show tt 5 1 firstState =
  (Panicked, {| world := 1; params := params firstState;
                trace := trace firstState
                         ++ [Requested (params firstState)] |}).
Proof.
  apply (proj1 (empty_choices_panic nat unit choiceless listing decode show
                  tt) 5 1 firstState 1);
    [lia | reflexivity].
Defined.


Lemma calls_well_formed_witness :
  (30 * Duration.Second)%Z = (30 * Duration.Second)%Z
  /\ exists m,
      Mcp.Arguments {| Mcp.Name := "kubectl";
                       Mcp.Arguments :=
                         VMap {[ "arguments" := VString "get pods" ]} |}
      = VMap m.
Proof.
  apply (calls_well_formed nat unit dispatching failing decode show tt 0
           question [kubectl] (30 * Duration.Second)%Z
           {| Mcp.Name := "kubectl";
              Mcp.Arguments :=
                VMap {[ "arguments" := VString "get pods" ]} |}).
  vm_compute. do 4 right. left. reflexivity.
Defined.

Lemma pauses_follow_calls_witness :
  (2 * Duration.Second)%Z = (2 * Duration.Second)%Z.
Proof.
  apply (proj1 (pauses_follow_calls nat unit dispatching failing decode show
                  tt 0 question [kubectl]) (2 * Duration.Second)%Z).
  vm_compute. do 7 right. left. reflexivity.
Defined.

End ClientMore.

(** ** The session *)

Module MainFacts.

Import Mcp OpenAI Client ClientSpec ClientMain.

Lemma oracleRequests_app tr1 tr2 :
  oracleRequests (tr1 ++ tr2) = oracleRequests tr1 + oracleRequests tr2.
Proof.
  unfold oracleRequests. rewrite List.filter_app, length_app. reflexivity.
Qed.

Lemma oracleRequests_Ran tr :
  oracleRequests (map Ran tr) = requests tr.
Proof.
  unfold oracleRequests, requests.
  induction tr as [|e tr IH]; [reflexivity|].
  destruct e; cbn in *; rewrite ?IH; reflexivity.
Qed.



Section Facts.

Variable World : Type.
Variable Ctx : Type.
Variable chat :
  World -> Ctx -> ChatCompletionNewParams -> World * (ChatCompletion + string).
Variable callTool :
  World -> Ctx -> Duration.t -> CallToolRequest ->
  World * (option CallToolResult * option string).
Variable unmarshal : string -> gmap string GoValue + string.
Variable formatContent : list Mcp.Content -> string.
Variable TrimSpace : string -> string.
Variable EqualFold : string -> string -> bool.
Variable background : Ctx.
Variable newClient : World -> string -> World * option string.
Variable start : World -> Ctx -> World * option string.
Variable initialize :
  World -> Ctx -> InitializeRequest -> World * (ServerInfo + string).
Variable listTools : World -> Ctx -> World * (list Tool + string).
Variable getenv : string -> string.
Variable LATEST_PROTOCOL_VERSION : string.

#[local] Abbreviation runPrompt_ :=
  (runPrompt World Ctx chat callTool unmarshal formatContent).
#[local] Abbreviation session_ :=
  (session World Ctx chat callTool unmarshal formatContent TrimSpace
     EqualFold background).
#[local] Abbreviation main_ :=
  (main World Ctx chat callTool unmarshal formatContent TrimSpace EqualFold
     background newClient start initialize listTools getenv
     LATEST_PROTOCOL_VERSION).

(** The session, one read at a time. *)
Lemma session_cons line reads tools w :
  session_ (line :: reads) tools w =
  if EqualFold (TrimSpace line) "quit" then
    (Exited, w, [Wrote enterLine; Wrote ("Exiting." +:+ nl)])
  else
    let '(x, st) := runPrompt_ w (TrimSpace line) tools background in
    let tr :=
      Wrote enterLine :: Wrote ("> " +:+ TrimSpace line +:+ nl)
      :: map Ran (trace st) in
    match x with
    | Client.Panicked => (Panicked, world st, tr)
    | Returned err =>
        let tr :=
          match err with
          | Some e => tr ++ [Wrote ("Error running prompt: " +:+ e)]
          | None => tr
          end in
        let '(x', w', tr') := session_ reads tools (world st) in
        (x', w', tr ++ tr')
    end.
Proof. reflexivity. Qed.

(** X21. Nothing that follows the line that ends the session is read: the
    session on an input is the session on that input cut after its first
    such line. *)
Theorem nothing_after_quit pre line post tools w :
  EqualFold (TrimSpace line) "quit" = true ->
  let session :=
    session World Ctx chat callTool unmarshal formatContent TrimSpace
      EqualFold background in
  session (pre ++ line :: post) tools w = session (pre ++ [line]) tools w.
Proof.
  intros Hq session. subst session. revert w. induction pre as [|l pre IH]; intros w.
  - cbn [app]. rewrite !session_cons, Hq. reflexivity.
  - cbn [app]. rewrite !session_cons.
    destruct (EqualFold (TrimSpace l) "quit"); [reflexivity|].
    destruct (runPrompt_ w (TrimSpace l) tools background) as [[err|] st];
      cbv zeta; [rewrite IH|]; reflexivity.
Qed.

(** X22. A session ends in one of three ways only, and an error of
    [runPrompt] is none of them: on a line that asks to quit; fatally, at
    the end of an input none of whose lines asks to quit; or by the panic
    of a run whose oracle returned a completion without choices. *)
Theorem session_exits reads tools w :
  let exit :=
    fst (fst (session World Ctx chat callTool unmarshal formatContent
                TrimSpace EqualFold background reads tools w)) in
  (exit = Exited ->
   exists line, In line reads /\ EqualFold (TrimSpace line) "quit" = true)
  /\ (forall msg,
         exit = Fatal msg ->
         msg = "Error reading input: EOF"
         /\ Forall (fun line => EqualFold (TrimSpace line) "quit" = false)
              reads)
  /\ (exit = Panicked ->
      exists w1 p w2, chat w1 background p = (w2, inl {| Choices := [] |})).
Proof.
  cbv zeta. revert w. induction reads as [|line reads IH]; intros w.
  - cbn. split; [discriminate | split; [|discriminate]].
    intros msg [= <-]. split; [reflexivity | constructor].
  - rewrite session_cons.
    destruct (EqualFold (TrimSpace line) "quit") eqn:Hq.
    + cbn [fst]. split; [|split; discriminate].
      intros _. exists line. split; [left; reflexivity | exact Hq].
    + destruct (runPrompt_ w (TrimSpace line) tools background)
        as [x st] eqn:Hrun. cbv zeta.
      destruct x as [err|].
      * specialize (IH (world st)).
        destruct (session_ reads tools (world st)) as [[x' w'] tr'].
        cbn [fst] in *. destruct IH as (IH1 & IH2 & IH3).
        split; [|split].
        -- intros Hx. destruct (IH1 Hx) as (l & Hl & Hlq).
           exists l. split; [right; exact Hl | exact Hlq].
        -- intros msg Hx. destruct (IH2 msg Hx) as [Hmsg Hall].
           split; [exact Hmsg | constructor; [exact Hq | exact Hall]].
        -- exact IH3.
      * cbn [fst]. split; [discriminate | split; [discriminate|]].
        intros _.
        apply (ClientMore.loop_panic World Ctx chat callTool unmarshal
                 formatContent background 5 4 1
                 {| world := w;
                    params := initialParams (TrimSpace line) tools;
                    trace := [] |} eq_refl).
        change (fst (runPrompt_ w (TrimSpace line) tools background)
                = Client.Panicked).
        rewrite Hrun. reflexivity.
Qed.

(** X23. A session asks the oracle at most four times per line read. *)
Theorem session_requests_bounded reads tools w :
  oracleRequests
    (snd (session World Ctx chat callTool unmarshal formatContent TrimSpace
            EqualFold background reads tools w))
  <= 4 * length reads.
Proof.
  revert w. induction reads as [|line reads IH]; intros w.
  - cbn. lia.
  - rewrite session_cons.
    destruct (EqualFold (TrimSpace line) "quit"); [cbn; lia|].
    pose proof (ClientMore.run_requests World Ctx chat callTool unmarshal
                  formatContent background w (TrimSpace line) tools) as Hr.
    destruct (runPrompt_ w (TrimSpace line) tools background) as [x st].
    cbv zeta. cbn [snd] in Hr.
    destruct x as [err|].
    + specialize (IH (world st)).
      destruct (session_ reads tools (world st)) as [[x' w'] tr'].
      cbn [snd length] in *.
      destruct err; rewrite ?oracleRequests_app;
        change (oracleRequests (Wrote ?a :: Wrote ?b :: ?l))
          with (oracleRequests l);
        rewrite ?oracleRequests_app, oracleRequests_Ran; cbn; lia.
    + cbn [snd length].
      change (oracleRequests (Wrote ?a :: Wrote ?b :: ?l))
        with (oracleRequests l).
      rewrite oracleRequests_Ran. lia.
Qed.



Lemma session_not_closed reads tools : forall w,
  ~ In Closed (snd (session_ reads tools w)).
Proof.
  induction reads as [|line reads IH]; intros w.
  - cbn. intros [H | []]. discriminate.
  - rewrite session_cons.
    destruct (EqualFold (TrimSpace line) "quit").
    { cbn. intros [H | [H | []]]; discriminate. }
    destruct (runPrompt_ w (TrimSpace line) tools background) as [x st].
    cbv zeta.
    assert (Hhere : ~ In Closed (map Ran (trace st))).
    { intros Hin. apply in_map_iff in Hin.
      destruct Hin as (e & He & _). discriminate. }
    destruct x as [err|].
    + specialize (IH (world st)).
      destruct (session_ reads tools (world st)) as [[x' w'] tr'].
      cbn [snd] in *. intros Hin.
      apply in_app_or in Hin. destruct Hin as [Hin | Hin]; [|exact (IH Hin)].
      destruct err.
      * apply in_app_or in Hin. destruct Hin as [Hin | [H | []]];
          [|discriminate].
        destruct Hin as [H | [H | Hin]]; try discriminate.
        exact (Hhere Hin).
      * destruct Hin as [H | [H | Hin]]; try discriminate.
        exact (Hhere Hin).
    + cbn [snd]. intros [H | [H | Hin]]; try discriminate.
      exact (Hhere Hin).
Qed.

Ltac startup :=
  unfold main;
  destruct (newClient _ _) as [w1 [e1|]];
  [|destruct (start _ _) as [w2 [e2|]];
    [|destruct (initialize _ _ _) as [w3 [info|e3]];
      [destruct (listTools _ _) as [w4 [tools|e4]]|]]].

Lemma listing_quiet (tools : list Tool) e :
  In e (map (fun tool =>
               Wrote ("- " +:+ ToolName tool +:+ ": "
                      +:+ ToolDescription tool +:+ nl)) tools) ->
  exists text, e = Wrote text.
Proof.
  intros Hin. apply in_map_iff in Hin. destruct Hin as (tool & <- & _).
  eexists. reflexivity.
Qed.

(** X25. Without [OPENAI_API_KEY] in the environment [main] exits fatally
    before it reads a question: it only writes its start-up lines, makes no
    request to the oracle and invokes no tool, whatever the standard input
    holds. *)
Theorem no_key_no_traffic w reads :
  getenv "OPENAI_API_KEY" = EmptyString ->
  let r :=
    main World Ctx chat callTool unmarshal formatContent TrimSpace EqualFold
      background newClient start initialize listTools getenv
      LATEST_PROTOCOL_VERSION w reads in
  (exists msg, fst (fst r) = Fatal msg)
  /\ forall e, In e (snd r) -> exists text, e = Wrote text.
Proof.
  intros Hkey r. subst r. startup; cbn [fst snd];
    try (split; [eexists; reflexivity|];
         intros e He; cbn in He;
         repeat (destruct He as [<- | He]; [eexists; reflexivity|]);
         destruct He).
  rewrite Hkey. cbn [String.eqb fst snd].
  split; [eexists; reflexivity|].
  intros e He. cbn [app] in He.
  destruct He as [<- | [<- | [<- | He]]]; try (eexists; reflexivity).
  exact (listing_quiet tools e He).
Qed.

(** X26. The deferred [Close] of the MCP client runs exactly when [main]
    does not exit fatally: it is the last effect when the session ends on a
    request to quit or by a panic, and it does not occur after any fatal
    exit. *)
Theorem closed_unless_fatal w reads :
  let r :=
    main World Ctx chat callTool unmarshal formatContent TrimSpace EqualFold
      background newClient start initialize listTools getenv
      LATEST_PROTOCOL_VERSION w reads in
  (forall msg, fst (fst r) = Fatal msg -> ~ In Closed (snd r))
  /\ ((forall msg, fst (fst r) <> Fatal msg) -> last (snd r) = Some Closed).
Proof.
  cbv zeta. startup; cbn [fst snd];
    try (split;
         [intros msg _ He; cbn in He;
          repeat (destruct He as [He | He]; [discriminate|]); destruct He
         |intros Hno; destruct (Hno _ eq_refl)]).
  destruct (String.eqb (getenv "OPENAI_API_KEY") EmptyString).
  - cbn [fst snd]. split; [|intros Hno; destruct (Hno _ eq_refl)].
    intros msg _ He. cbn [app] in He.
    destruct He as [He | [He | [He | He]]]; try discriminate.
    destruct (listing_quiet tools _ He) as [text Ht]. discriminate.
  - pose proof (session_not_closed reads tools w4) as Hs.
    destruct (session_ reads tools w4) as [[x w5] tr'].
    cbn [snd] in Hs.
    assert (Hpre : forall e,
               In e ([Wrote "Initializing server..."]
                     ++ [Wrote ("Initialized with server: "
                                +:+ ServerName info +:+ " "
                                +:+ ServerVersion info +:+ nl)])
               \/ In e ([Wrote ("Available tools:" +:+ nl)]
                        ++ map (fun tool =>
                                  Wrote ("- " +:+ ToolName tool +:+ ": "
                                         +:+ ToolDescription tool +:+ nl))
                             tools) ->
               e <> Closed).
    { intros e [He | He]; cbn [app] in He.
      - destruct He as [<- | [<- | []]]; discriminate.
      - destruct He as [<- | He]; [discriminate|].
        destruct (listing_quiet tools e He) as [text ->]. discriminate. }
    destruct x as [|msg|]; cbn [fst snd].
    + split; [discriminate|]. intros _.
      rewrite !app_assoc. apply last_snoc.
    + split; [|intros Hno; destruct (Hno _ eq_refl)].
      intros msg' _ He.
      apply in_app_or in He. destruct He as [He | He]; [|exact (Hs He)].
      apply in_app_or in He.
      exact (Hpre Closed He eq_refl).
    + split; [discriminate|]. intros _.
      rewrite !app_assoc. apply last_snoc.
Qed.

End Facts.

Import Samples MoreSamples MainSamples.

Lemma nothing_after_quit_witness :
  session nat unit answering listing decode show trim sameText tt
    (twoQuestions ++ quitLine :: ["are all pods running?" +:+ nl])
    [kubectl] 0
  = session nat unit answering listing decode show trim sameText tt
      (twoQuestions ++ [quitLine]) [kubectl] 0.
Proof.
  apply (nothing_after_quit nat unit answering listing decode show trim
           sameText tt twoQuestions quitLine
           ["are all pods running?" +:+ nl] [kubectl] 0).
  reflexivity.
Defined.

Lemma session_exits_witness :
  exists line,
    In line (twoQuestions ++ [quitLine]) /\ sameText (trim line) "quit" = true.
Proof.
  apply (proj1 (session_exits nat unit unreachable listing decode show trim
                  sameText tt (twoQuestions ++ [quitLine]) [kubectl] 0)).
  reflexivity.
Defined.


Lemma no_key_no_traffic_witness :
  exists msg, fst (fst keylessMain) = Fatal msg.
Proof.
  exact (proj1 (no_key_no_traffic nat unit answering listing decode show trim
                  sameText tt connects starts initializes lists withoutKey
                  "2025-03-26" 0 (twoQuestions ++ [quitLine]) eq_refl)).
Defined.

Lemma closed_unless_fatal_witness :
  last (snd answeredMain) = Some Closed.
Proof.
  apply (proj2 (closed_unless_fatal nat unit answering listing decode show
                  trim sameText tt connects starts initializes lists withKey
                  "2025-03-26" 0 (twoQuestions ++ [quitLine]))).
  intros msg. vm_compute. discriminate.
Defined.

End MainFacts.
